(* ===== verification/_CoqProject ===== *)
-Q . S2P
Prelude.v
JsNumber.v
Heap.v
Reducer.v
Store.v
StoreSafety.v
StoreTyping.v
StoreNotify.v
UseStore.v
App.v
AppSpec.v
Witnesses.v
