(* ===== verification/Prelude.v ===== *)
(** * A verification development for the counter store of [src/src/App.js]

    ** The program

    [src/src/App.js] is one React component [App] holding, in its body:
    - [reducer(state, action)] (lines 11-20): [{count: state.count + 1}]
      for INCREMENT, [- 1] for DECREMENT, [state] itself otherwise;
    - [createStore(reducer, initialState)] (lines 22-43): a closure over
      [let state] and [let listeners = []] returning [getState],
      [dispatch] (assign [state], then [listeners.forEach(l => l())]) and
      [subscribe] (push, and return an unsubscribe closure that rebinds
      [listeners] to [listeners.filter(l => l !== listener)]);
    - the hook [useStore] (lines 45-61): [useContext], [useState] seeded
      by [store.getState()], and an effect on [[store]] subscribing a
      listener that calls [setState(store.getState())];
    - [StoreProvider] and [Counter] (lines 68-86), and [App]'s own render
      (line 66, lines 88-92), which calls [createStore] on every render.

    ** Files and what they model

    - [Prelude] (this file): the notation [a !== b], the development's
      tactics and hint databases, and [js_remove], the [filter] of line 38.
    - [JsNumber]: JavaScript Numbers as IEEE-754 binary64 ([spec_float],
      53 bits of precision), [+] and [-] as [SFadd]/[SFsub], the literals
      as [of_Z]; exactness of [+]/[-] on safe integers, and the rounding
      at [2^53].
    - [Heap]: the JavaScript objects the program creates: state objects
      [{count}], the listener arrays, and the closure environments of
      [createStore] (the cells [state] and [listeners]); [alloc] and
      [update] are the only writes.
    - [Reducer] ([Module Reducer]): [initialState], the action types,
      [reducer] allocating a new state object, with its behaviour on every
      branch and its saturation at [2^53].
    - [Store] ([Module Store]): [createStore], [getState] and the store
      machine: commands [CDispatch], [CSubscribe], [CUnsubscribe], the
      listener's external statement [CExt] and the [forEach] loop
      [CForEach] (length read once, as [Array.prototype.forEach] does);
      an executable [step] and an inductive [cstep], proved to agree, and a
      fuelled [run].  The machine is generic in the reducer through the
      interface [StoreReducer]/[StoreReducerLaws] and in the effect of the
      listeners' external statements.
    - [StoreSafety]: the well-formedness invariant [wf_config] (every
      store's environment points to a state object and a listener array,
      every subscribed function has code), preserved by [cstep], and
      progress: a reachable configuration is never stuck (no [TypeError]).
    - [StoreTyping]: the type invariant [state_typed] (every store's
      [state] is a state object), kept by every transition of a machine
      whose reducer satisfies [reduce_state].
    - [StoreNotify]: which listeners [dispatch] notifies (the snapshot
      semantics of the pass), and the divergence of a re-entrant
      [dispatch].
    - [UseStore] ([Module UseStore]): the hook against the part of React
      it uses: a state cell per component instance ([setState] is
      [hook_ext]), the effect keyed by its dependency [store] and its
      cleanup.
    - [App] ([Module App]): [App]'s render, the element tree
      [StoreProvider > Counter] with its context resolution
      ([StoreContext_default] is the [null] of [createContext]), React's
      render phase then commit phase, and the [Counter]'s clicks and
      re-renders of [App] as events.  [StoreContext], [StoreProvider] and
      [Counter] are created inside [App]'s body (lines 45, 68, 76), so each
      render of [App] gives React new component types: [app_render]
      creates a new store (line 66), unmounts the old [Counter] (its effect
      cleanup runs and its state cell is dropped) and mounts a fresh one
      that reads the new store.
    - [AppSpec] ([Module AppSpec]): the specification of the running
      application, the integer counter [spec_count] (saturating at
      [± 2^53], reset to [0] by a re-render of [App]), the invariant
      [synced] relating an application state to it, a generic lockstep
      simulation ([Section lockstep]) and the refinement.
    - [Witnesses]: every theorem with hypotheses applied to concrete
      stores built by the model's own functions.

    ** What is proved

    - Refinement ([AppSpec.app_refines]): for every sequence of clicks,
      dispatches and re-renders of [App], from the first render, the
      application runs to completion with the model's fuel, and the
      [Counter] displays, and the current store holds, [spec_count].
    - A re-render of [App] resets the display to [0] and abandons the old
      store, left with no listener ([AppSpec.rerender_resets]).
    - Errors: for a tree whose providers pass live stores, the render
      throws exactly when the tree is a [Counter] outside every provider
      ([App.render_throws_outside_provider]).
    - The store: [createStore] is well formed; every step preserves
      [wf_config]; a well-formed configuration with a pending command can
      step, so the machine never gets stuck ([StoreSafety.safety]);
      [dispatch] calls exactly the listeners present when it began, in
      order, once each, and ends with the reducer's state
      ([StoreNotify.dispatch_notifies]); [subscribe] pushes; the
      unsubscribe closure filters out every occurrence of the listener
      and is idempotent; [subscribe] then unsubscribe gives back the
      listeners ([StoreSafety.subscribe_unsubscribe_roundtrip]); in the
      program's machine every store's [state] stays a state object
      ([App.app_state_typed], from the generic [StoreTyping.cstep_typed]).
    - The hook: a change of [store] moves the subscription, unmounting
      removes it ([UseStore.useStore_effect_moves],
      [UseStore.unmount_unsubscribes]).
    - The reducer on every branch, its saturation at [± 2^53]
      ([Reducer.reducer_saturates]), and the round trip INCREMENT then
      DECREMENT ([Reducer.increment_decrement_roundtrip]).
    - Behaviours of the code the comments do not announce: a re-render
      of [App] loses the count ([AppSpec.rerender_resets]); a function
      subscribed twice is dropped entirely by one unsubscribe
      ([StoreSafety.double_subscription_cancelled]); a listener that
      dispatches makes [dispatch] diverge
      ([StoreNotify.dispatch_reentrant_diverges]).

    ** Bounds and fuel

    Counts are kept as binary64 values, not as unbounded integers; the
    theorems that equate them with integers assume [|n| ≤ 2^53], and the
    refinement shows the counter never leaves that range.  [run] takes
    fuel: a dispatch with the application's single listener of one
    statement takes 4 steps, and [App.dispatch_fuel] is 16.  The
    refinement states that every event sequence runs to completion with
    that fuel ([Some] result), and [dispatch_notifies] that the
    transition relation reaches the end of a dispatch, not only that a
    result, when returned, is right.

    ** Not modelled

    React's rendering, reconciliation and scheduling are modelled only as
    far as the program uses them: state cells, effects on a dependency
    list run after the render phase, context resolution in the element
    tree, the remount of a component whose type changes between renders,
    re-render after [setState].  The DOM the JSX produces is not
    modelled: the display is the count in the [Counter]'s state cell, and
    React's bail-out on [setState] of the same object is not modelled (it
    skips a re-render that changes nothing the model observes).  The
    import (line 1) and export (line 95) have no behaviour.  A listener
    that itself dispatches recurses without bound in the code
    ([StoreNotify.dispatch_reentrant_diverges]); the notification
    theorems exclude such listeners ([flat_code]). *)

From stdpp Require Import base list relations.
From Stdlib Require Import ZArith Lia.

(** ** Notation scope of the development *)

Declare Scope js_scope.
Delimit Scope js_scope with js.

(** JavaScript strict inequality [a !== b] on values with decidable
    equality, as a boolean. *)
Notation "a !== b" := (negb (bool_decide (a = b))) (at level 70, no associativity) : js_scope.
Open Scope js_scope.

(** ** Tactics *)

Ltac invc H := inversion H; subst; clear H.

(** Split a conjunction-heavy goal and close the easy pieces. *)
Ltac split_and_done := repeat split; try done.

Create HintDb js.
Create Rewrite HintDb js_rw.

(** ** Array.prototype.filter with [l => l !== x]

    [js_remove x l] is [l.filter(y => y !== x)]: a new array holding, in
    order, the elements of [l] that differ from [x]. *)

Definition js_remove {A} `{EqDecision A} (x : A) (l : list A) : list A :=
  filter (λ y, (y !== x) = true) l.

Section js_remove.
Context {A : Type} `{EqDecision A}.
Implicit Types (x y : A) (l : list A).

Lemma elem_of_js_remove x y l : y ∈ js_remove x l ↔ y ≠ x ∧ y ∈ l.
Proof.
  unfold js_remove. rewrite list_elem_of_filter.
  rewrite negb_true_iff, bool_decide_eq_false. done.
Qed.

Lemma not_elem_of_js_remove x l : x ∉ js_remove x l.
Proof. rewrite elem_of_js_remove. naive_solver. Qed.

Lemma js_remove_idemp x l : js_remove x (js_remove x l) = js_remove x l.
Proof.
  unfold js_remove. rewrite list_filter_filter.
  apply list_filter_iff. naive_solver.
Qed.

Lemma js_remove_app x l1 l2 : js_remove x (l1 ++ l2) = js_remove x l1 ++ js_remove x l2.
Proof. apply filter_app. Qed.

(** [l.filter(y => y !== x)] is the list filter on [y ≠ x]. *)
Lemma js_remove_spec x l : js_remove x l = filter (λ y, y ≠ x) l.
Proof.
  unfold js_remove. apply list_filter_iff. intros y.
  by rewrite negb_true_iff, bool_decide_eq_false.
Qed.

Lemma js_remove_notin x l : x ∉ l → js_remove x l = l.
Proof.
  induction l as [|y l IH]; intros Hx; [done|].
  rewrite elem_of_cons in Hx.
  unfold js_remove in *. rewrite filter_cons_True; [f_equal; naive_solver|].
  rewrite negb_true_iff, bool_decide_eq_false. naive_solver.
Qed.

Lemma js_remove_cons_eq x l : js_remove x (x :: l) = js_remove x l.
Proof.
  unfold js_remove. rewrite filter_cons_False; [done|].
  rewrite negb_true_iff, bool_decide_eq_false. naive_solver.
Qed.

Lemma js_remove_cons_ne x y l : y ≠ x → js_remove x (y :: l) = y :: js_remove x l.
Proof.
  intros. unfold js_remove. rewrite filter_cons_True; [done|].
  rewrite negb_true_iff, bool_decide_eq_false. done.
Qed.
End js_remove.

#[export] Hint Resolve not_elem_of_js_remove : js.
#[export] Hint Rewrite @js_remove_idemp @js_remove_app @js_remove_cons_eq : js_rw.
