(* ===== verification/JsNumber.v ===== *)
(** * JavaScript Numbers: IEEE-754 binary64 addition and subtraction

    [state.count + 1] and [state.count - 1] in [src/src/App.js] (lines 14
    and 16) are JavaScript additions on Numbers, i.e. binary64 operations
    rounded to nearest, ties to even.  They are modelled with the
    Standard Library's [SpecFloat] (a Gallina transcription of Flocq's
    binary floats, with [prec = 53] and [emax = 1024]), so the model
    computes exactly what the engine computes, rounding included.

    The lemmas show that on safe integers (magnitude at most [2^53]) the
    operations are exact ([js_add_exact], [js_sub_exact]); the proof goes
    through the canonical representation of an integer ([canon_mant],
    [canon_exp]) and the exact cases of SpecFloat's rounding. *)

From Stdlib Require Import ZArith Lia SpecFloat.
From S2P Require Import Prelude.

Local Open Scope Z_scope.

(** ** Definitions *)

(** binary64: 53 bits of precision, infinities at exponent 1024. *)
Definition prec : Z := 53.
Definition emax : Z := 1024.

(** A JavaScript Number value. *)
Definition number : Type := spec_float.

(** [x + y] and [x - y] on Numbers (ECMA-262 Number::add / subtract). *)
Definition js_add (x y : number) : number := SFadd prec emax x y.
Definition js_sub (x y : number) : number := SFsub prec emax x y.

(** The Number denoted by an integer literal ([0], [1]): the integer
    rounded to binary64, with [+0] for zero. *)
Definition of_Z (z : Z) : number := binary_normalize prec emax z 0 false.

(** [Number.MAX_SAFE_INTEGER + 1]: every integer of magnitude at most
    [2^53] is a Number exactly. *)
Definition two53 : Z := 2 ^ 53.

(** The canonical binary64 representation of the positive integer [P]
    (at most [2^53]): exponent [log2 P - 52], mantissa [P] shifted so that
    it has 53 bits. *)
Definition canon_exp (P : positive) : Z := Z.log2 (Zpos P) - 52.
Definition canon_mant (P : positive) : positive :=
  Z.to_pos (Z.shiftl (Zpos P) (52 - Z.log2 (Zpos P))).

(** ** Lemmas on SpecFloat's rounding *)

Section Exactness.
Lemma digits2_pos_log2 p : Zpos (digits2_pos p) = Z.log2 (Zpos p) + 1.
Proof.
  induction p as [p IH|p IH|]; simpl digits2_pos; [| |reflexivity];
  rewrite Pos2Z.inj_succ, IH.
  - rewrite Pos2Z.inj_xI, Z.log2_succ_double by lia. lia.
  - rewrite Pos2Z.inj_xO, Z.log2_double by lia. lia.
Qed.
Lemma iter_xO_mul p k : Zpos (Pos.iter xO p k) = Zpos p * 2 ^ Zpos k.
Proof.
  induction k as [|k IH] using Pos.peano_ind; [simpl; lia|].
  rewrite Pos.iter_succ, Pos2Z.inj_xO, IH, Pos2Z.inj_succ, Z.pow_succ_r by lia. lia.
Qed.
Lemma shr_1_double q :
shr_1 {| shr_m := 2 * q; shr_r := false; shr_s := false |}
= {| shr_m := q; shr_r := false; shr_s := false |}.
Proof. destruct q; reflexivity. Qed.
Lemma iter_pos_shr_1_exact k : forall q,
iter_pos shr_1 k {| shr_m := q * 2 ^ Zpos k; shr_r := false; shr_s := false |}
= {| shr_m := q; shr_r := false; shr_s := false |}.
Proof.
  induction k as [k IH|k IH|]; intros q.
  - replace (q * 2 ^ Zpos k~1) with (2 * ((q * 2 ^ Zpos k) * 2 ^ Zpos k))
      by (replace (Zpos k~1) with (Zpos k + Zpos k + 1) by lia;
          rewrite !Z.pow_add_r by lia; ring).
    cbn [iter_pos]. now rewrite shr_1_double, !IH.
  - replace (q * 2 ^ Zpos k~0) with ((q * 2 ^ Zpos k) * 2 ^ Zpos k)
      by (replace (Zpos k~0) with (Zpos k + Zpos k) by lia;
          rewrite !Z.pow_add_r by lia; ring).
    cbn [iter_pos]. now rewrite !IH.
  - cbn [iter_pos]. rewrite Z.mul_comm. apply shr_1_double.
Qed.

Lemma fexp_small d : -1020 <= d -> (fexp prec emax) d = d - 53.
Proof. intros. unfold fexp, emin, prec, emax. lia. Qed.

Lemma round_aux_exact sx (M : positive) E :
(fexp prec emax) (Zpos (digits2_pos M) + E) = E -> E <= 971 ->
binary_round_aux prec emax sx (Zpos M) E loc_Exact = S754_finite sx M E.
Proof.
  intros HE Hb. unfold binary_round_aux, shr_fexp. cbn [Zdigits2].
  rewrite HE, Z.sub_diag. cbn [shr shr_record_of_loc shr_m loc_of_shr_record round_nearest_even].
  cbn [Zdigits2]. rewrite HE, Z.sub_diag. cbn [shr shr_m].
  replace (E <=? emax - prec) with true by (unfold emax, prec; lia). reflexivity.
Qed.

Lemma round_aux_shift sx (m M p : positive) e :
Zpos m = Zpos M * 2 ^ Zpos p -> (fexp prec emax) (Zpos (digits2_pos m) + e) = e + Zpos p ->
e + Zpos p <= 971 ->
binary_round_aux prec emax sx (Zpos m) e loc_Exact = S754_finite sx M (e + Zpos p).
Proof.
  intros Hm HE Hb. unfold binary_round_aux, shr_fexp. cbn [Zdigits2].
  rewrite HE. replace (e + Zpos p - e) with (Zpos p) by lia.
  cbn [shr shr_record_of_loc]. rewrite Hm, iter_pos_shr_1_exact.
  cbn [shr_m loc_of_shr_record round_nearest_even Zdigits2].
  assert (Hd : Zpos (digits2_pos M) + (e + Zpos p) = Zpos (digits2_pos m) + e).
  { rewrite !digits2_pos_log2, Hm, Z.log2_mul_pow2 by lia. lia. }
  rewrite Hd, HE, Z.sub_diag. cbn [shr shr_m].
  replace (e + Zpos p <=? emax - prec) with true by (unfold emax, prec; lia). reflexivity.
Qed.


Lemma log2_bound (P : positive) : Zpos P <= 2^53 ->
0 <= Z.log2 (Zpos P) <= 53 /\ 2 ^ Z.log2 (Zpos P) <= Zpos P.
Proof.
  intros H. pose proof (Z.log2_nonneg (Zpos P)).
  pose proof (Z.log2_spec (Zpos P) ltac:(lia)) as [H1 H2].
  split; [split; [lia|] | lia].
  change 53 with (Z.log2 (2^53)). now apply Z.log2_le_mono.
Qed.

(* the top binade: 2^53 itself *)
Lemma log2_53 (P : positive) : Zpos P <= 2^53 -> Z.log2 (Zpos P) = 53 -> Zpos P = 2^53.
Proof.
  intros H HL. pose proof (log2_bound P H) as [_ H2]. rewrite HL in H2. lia.
Qed.

Lemma canon_mant_val (P : positive) : Zpos P <= 2^53 ->
Zpos (canon_mant P) = Z.shiftl (Zpos P) (52 - Z.log2 (Zpos P)).
Proof.
  intros H. unfold canon_mant. apply Z2Pos.id.
  pose proof (log2_bound P H) as [[H0 H1] H2].
  destruct (Z.eq_dec (Z.log2 (Zpos P)) 53) as [E|E].
  - rewrite E, (log2_53 P H E). reflexivity.
  - rewrite Z.shiftl_mul_pow2 by lia. lia.
Qed.

Lemma binary_round_int sx (m P : positive) k :
0 <= k -> Zpos m = Zpos P * 2 ^ k -> Zpos P <= 2 ^ 53 ->
binary_round prec emax sx m (-k) = S754_finite sx (canon_mant P) (canon_exp P).
Proof.
  intros Hk Hm HP. pose proof (log2_bound P HP) as [[HL0 HL1] HL2].
  pose proof (canon_mant_val P HP) as HM.
  assert (Hd : Zpos (digits2_pos m) + - k = Z.log2 (Zpos P) + 1).
  { rewrite digits2_pos_log2, Hm, Z.log2_mul_pow2 by lia. lia. }
  unfold binary_round, canon_exp. rewrite Hd, fexp_small by lia.
  unfold shl_align. destruct (Z.log2 (Zpos P) + 1 - 53 - - k) as [|p|p] eqn:Hs.
  - replace (canon_mant P) with m.
    + replace (Z.log2 (Zpos P) - 52) with (- k) by lia.
      apply round_aux_exact; [rewrite Hd, fexp_small|]; lia.
    + apply Pos2Z.inj. rewrite HM, Z.shiftl_mul_pow2 by lia.
      replace (52 - Z.log2 (Zpos P)) with k by lia. exact Hm.
  - replace (Z.log2 (Zpos P) - 52) with (- k + Zpos p) by lia.
    apply round_aux_shift; [|rewrite Hd, fexp_small; lia|lia].
    rewrite HM, Hm. destruct (Z.eq_dec (Z.log2 (Zpos P)) 53) as [E|E].
    + rewrite E, (log2_53 P HP E). replace (Zpos p) with (1 + k) by lia.
      rewrite Z.pow_add_r by lia. change (Z.shiftl (2 ^ 53) (52 - 53)) with (2 ^ 52). lia.
    + rewrite Z.shiftl_mul_pow2 by lia. replace (Zpos p) with (Z.log2 (Zpos P) - 52 + k) by lia.
      rewrite <- Z.mul_assoc, <- Z.pow_add_r by lia. f_equal. f_equal. lia.
  - simpl fst; simpl snd. replace (Z.log2 (Zpos P) + 1 - 53) with (Z.log2 (Zpos P) - 52) by lia.
    replace (canon_mant P) with (Pos.iter xO m p).
    + apply round_aux_exact; [|lia].
      rewrite digits2_pos_log2, iter_xO_mul, Z.log2_mul_pow2, Hm, Z.log2_mul_pow2 by lia.
      rewrite fexp_small; lia.
    + apply Pos2Z.inj. rewrite HM, iter_xO_mul, Hm, Z.shiftl_mul_pow2 by lia.
      rewrite <- Z.mul_assoc, <- Z.pow_add_r by lia. f_equal. f_equal. lia.
Qed.

Lemma binary_round_int0 sx (p : positive) : Zpos p <= 2 ^ 53 ->
binary_round prec emax sx p 0 = S754_finite sx (canon_mant p) (canon_exp p).
Proof. intros. apply (binary_round_int sx p p 0); lia. Qed.


Lemma normalize_scaled c k : 0 <= k -> Z.abs c <= 2 ^ 53 ->
binary_normalize prec emax (c * 2 ^ k) (- k) false = of_Z c.
Proof.
  intros Hk Hc. unfold of_Z.
  assert (0 < 2 ^ k) by lia.
  destruct c as [|p|p]; [reflexivity| |].
  - destruct (Zpos p * 2 ^ k) as [|m|m] eqn:Hm; [lia| |lia]. cbn [binary_normalize].
    rewrite (binary_round_int false m p k), binary_round_int0 by lia; reflexivity.
  - destruct (Zneg p * 2 ^ k) as [|m|m] eqn:Hm; [lia|lia|]. cbn [binary_normalize].
    rewrite (binary_round_int true m p k), binary_round_int0 by lia; reflexivity.
Qed.

Lemma of_Z_finite c : c <> 0 -> Z.abs c <= 2 ^ 53 ->
of_Z c = S754_finite (c <? 0) (canon_mant (Z.to_pos (Z.abs c))) (canon_exp (Z.to_pos (Z.abs c))).
Proof.
  intros Hc Hb. unfold of_Z.
  destruct c as [|p|p]; [lia| |]; cbn [binary_normalize];
    rewrite binary_round_int0 by lia; reflexivity.
Qed.

Lemma shl_align_val m e ez : ez <= e ->
Zpos (fst (shl_align m e ez)) = Zpos m * 2 ^ (e - ez).
Proof.
  intros H. unfold shl_align. destruct (ez - e) as [|d|d] eqn:Hd.
  - replace (e - ez) with 0 by lia. simpl. lia.
  - lia.
  - simpl fst. rewrite iter_xO_mul. do 2 f_equal. lia.
Qed.

Lemma canon_aligned (P : positive) ez : Zpos P <= 2 ^ 53 -> ez <= 0 -> ez <= canon_exp P ->
Zpos (canon_mant P) * 2 ^ (canon_exp P - ez) = Zpos P * 2 ^ (- ez).
Proof.
  intros HP Hz He. rewrite canon_mant_val by exact HP. unfold canon_exp in *.
  pose proof (log2_bound P HP) as [[HL0 HL1] HL2].
  destruct (Z.eq_dec (Z.log2 (Zpos P)) 53) as [E|E].
  - rewrite E, (log2_53 P HP E). change (Z.shiftl (2 ^ 53) (52 - 53)) with (2 ^ 52).
    replace (53 - 52 - ez) with (1 + - ez) by lia. rewrite Z.pow_add_r by lia. lia.
  - rewrite Z.shiftl_mul_pow2, <- Z.mul_assoc, <- Z.pow_add_r by lia. do 2 f_equal. lia.
Qed.

Lemma canon_exp_le (P : positive) : Zpos P <= 2 ^ 53 -> -52 <= canon_exp P <= 1.
Proof. intros HP. pose proof (log2_bound P HP). unfold canon_exp. lia. Qed.

Lemma canon_exp_top (P : positive) : Zpos P <= 2 ^ 53 -> 0 < canon_exp P -> Zpos P = 2 ^ 53.
Proof. intros HP H. apply log2_53; [exact HP|]. pose proof (log2_bound P HP). unfold canon_exp in H. lia. Qed.

Lemma cond_Zopp_abs c : c <> 0 -> forall k, cond_Zopp (c <? 0) (Z.abs c * k) = c * k.
Proof. intros Hc k. unfold cond_Zopp. destruct (Z.ltb_spec c 0); lia. Qed.

Theorem js_add_exact a b :
Z.abs a <= 2 ^ 53 -> Z.abs b <= 2 ^ 53 -> Z.abs (a + b) <= 2 ^ 53 ->
js_add (of_Z a) (of_Z b) = of_Z (a + b).
Proof.
  intros Ha Hb Hab.
  destruct (Z.eq_dec a 0) as [->|Ha0]; [destruct (Z.eq_dec b 0) as [->|Hb0]|].
  - reflexivity.
  - rewrite Z.add_0_l, (of_Z_finite b) by lia. reflexivity.
  - destruct (Z.eq_dec b 0) as [->|Hb0]; [rewrite Z.add_0_r, (of_Z_finite a) by lia; reflexivity|].
    rewrite (of_Z_finite a), (of_Z_finite b) by lia. unfold js_add, SFadd.
    set (Pa := Z.to_pos (Z.abs a)). set (Pb := Z.to_pos (Z.abs b)).
    assert (HPa : Zpos Pa = Z.abs a) by (subst Pa; lia).
    assert (HPb : Zpos Pb = Z.abs b) by (subst Pb; lia).
    pose proof (canon_exp_le Pa ltac:(lia)). pose proof (canon_exp_le Pb ltac:(lia)).
    set (ez := Z.min (canon_exp Pa) (canon_exp Pb)).
    destruct (Z.le_gt_cases ez 0) as [Hez|Hez].
    + rewrite !shl_align_val by (subst ez; lia).
      rewrite !canon_aligned by (subst ez; lia). rewrite HPa, HPb, !cond_Zopp_abs by lia.
      rewrite <- Z.mul_add_distr_r. replace ez with (- - ez) at 2 by lia.
      apply normalize_scaled; lia.
    + assert (Zpos Pa = 2 ^ 53) by (apply canon_exp_top; subst ez; lia).
      assert (Zpos Pb = 2 ^ 53) by (apply canon_exp_top; subst ez; lia).
      assert (Pa = Pb) as <- by lia. rewrite !shl_align_val by (subst ez; lia).
      replace (a + b) with 0 by lia. unfold cond_Zopp.
      destruct (Z.ltb_spec a 0), (Z.ltb_spec b 0); try lia;
        rewrite ?Z.add_opp_diag_l, ?Z.add_opp_diag_r; reflexivity.
Qed.

Lemma SFsub_SFadd_opp x y : js_sub x y = js_add x (SFopp y).
Proof.
  unfold js_sub, js_add.
  destruct x as [sx|sx| |sx mx ex], y as [sy|sy| |sy my ey]; try reflexivity;
    try (destruct sx, sy; reflexivity).
Qed.

Lemma binary_round_aux_opp sx m e l :
binary_round_aux prec emax (negb sx) m e l = SFopp (binary_round_aux prec emax sx m e l).
Proof.
  unfold binary_round_aux.
  destruct (shr_fexp prec emax m e l) as [mrs' e'].
  destruct (shr_fexp prec emax _ e' loc_Exact) as [mrs'' e''].
  destruct (shr_m mrs'') as [|p|p]; try reflexivity.
  destruct (e'' <=? _); reflexivity.
Qed.

Lemma of_Z_opp c : c <> 0 -> of_Z (- c) = SFopp (of_Z c).
Proof.
  intros Hc. unfold of_Z, binary_normalize, binary_round.
  destruct c as [|p|p]; [lia|change (- Zpos p) with (Zneg p)|change (- Zneg p) with (Zpos p)];
    cbv iota beta.
  - destruct (shl_align _ _ _). apply (binary_round_aux_opp false).
  - destruct (shl_align _ _ _). rewrite <- (binary_round_aux_opp true). reflexivity.
Qed.

Theorem js_sub_exact a b :
Z.abs a <= 2 ^ 53 -> Z.abs b <= 2 ^ 53 -> Z.abs (a - b) <= 2 ^ 53 ->
js_sub (of_Z a) (of_Z b) = of_Z (a - b).
Proof.
  intros Ha Hb Hab. destruct (Z.eq_dec b 0) as [->|Hb0].
  - rewrite Z.sub_0_r. destruct (Z.eq_dec a 0) as [->|Ha0]; [reflexivity|].
    rewrite (of_Z_finite a) by lia. reflexivity.
  - rewrite SFsub_SFadd_opp, <- of_Z_opp by exact Hb0. apply js_add_exact; lia.
Qed.

End Exactness.
