(* ===== verification/Heap.v ===== *)
(** * The JavaScript objects of [src/src/App.js] and the heap holding them

    The program allocates three kinds of objects: state objects
    [{ count: ... }] (lines 4-6, 14, 16), arrays of listener functions
    ([let listeners = []], line 24, and the arrays built by [filter],
    line 38), and, for every call of [createStore] (line 22), the closure
    environment holding its two [let] variables [state] and [listeners].
    Functions are values with an identity ([fid]); their bodies live in
    the store machine of [Store.v].

    Object identity matters to the code: [reducer] returns the very same
    state object on an unknown action (line 18), [filter] compares
    listeners with [!==] (line 38) and [push] mutates the array that a
    running [forEach] is traversing (lines 30, 34).  The heap therefore
    maps locations to objects; locations are never reused. *)

From stdpp Require Import base gmap list strings.
From S2P Require Import Prelude JsNumber.

(** ** Values and objects *)

Definition loc : Type := positive.
Definition fid : Type := positive.

(** A state object [{ count: n }]. *)
Record State := mkState { count : number }.

(** An action object [{ type: t }]; [type] is [None] when the property is
    absent or is not a string (no [case] of the [switch] can match it). *)
Record Action := mkAction { type : option string }.

Inductive obj :=
  | OState (s : State)
  | OArray (a : list fid)
  | OEnv (state : loc) (listeners : loc).

Record heap := mkHeap { objs : gmap loc obj ; next : loc }.

Definition heap_empty : heap := mkHeap ∅ 1%positive.

(** [{ ... }] or [[...]]: a fresh object. *)
Definition alloc (o : obj) (h : heap) : loc * heap :=
  (next h, mkHeap (<[next h := o]> (objs h)) (Pos.succ (next h))).

(** Writing an existing object (a [let] variable of an environment, or a
    [push] on an array). *)
Definition update (l : loc) (o : obj) (h : heap) : heap :=
  mkHeap (<[l := o]> (objs h)) (next h).

(** [state.count]: [None] is [undefined]. *)
Definition get_count (h : heap) (l : loc) : option number :=
  match objs h !! l with Some (OState s) => Some (count s) | _ => None end.

(** ToNumber on the value of [state.count]: [undefined] becomes NaN, so
    that [undefined + 1] and [undefined - 1] are NaN as in JavaScript. *)
Definition to_number (v : option number) : number :=
  match v with Some n => n | None => SpecFloat.S754_nan end.

Definition array_of (o : obj) : option (list fid) :=
  match o with OArray a => Some a | _ => None end.
Definition env_of (o : obj) : option (loc * loc) :=
  match o with OEnv s ls => Some (s, ls) | _ => None end.

Definition read_array (h : heap) (l : loc) : option (list fid) := objs h !! l ≫= array_of.
Definition read_env (h : heap) (l : loc) : option (loc * loc) := objs h !! l ≫= env_of.

(** ** Well-formedness and evolution of the heap *)

(** Every allocated location is below the allocation pointer. *)
Definition heap_wf (h : heap) : Prop :=
  ∀ l, is_Some (objs h !! l) → (l < next h)%positive.

(** [h'] extends [h]: no object of [h] was touched. *)
Definition heap_incl (h h' : heap) : Prop :=
  objs h ⊆ objs h' ∧ (next h ≤ next h')%positive.

(** Two objects of the same kind (an environment stays an environment,
    an array an array). *)
Definition same_kind (o o' : obj) : Prop :=
  match o, o' with
  | OState _, OState _ | OArray _, OArray _ | OEnv _ _, OEnv _ _ => True
  | _, _ => False
  end.

(** [h'] is a later heap of [h]: every object of [h] is still there with
    the same kind. *)
Definition heap_evolves (h h' : heap) : Prop :=
  ∀ l o, objs h !! l = Some o → ∃ o', objs h' !! l = Some o' ∧ same_kind o o'.

(** Arrays of [h] are prefixes of their contents in [h']: the only
    in-place mutation of an array in the program is [push]. *)
Definition arrays_grow (h h' : heap) : Prop :=
  ∀ l a, read_array h l = Some a → ∃ a', read_array h' l = Some (a ++ a').

(** ** Lemmas *)

Section heap_lemmas.
Implicit Types (h : heap) (l : loc) (o : obj).

Lemma alloc_fresh h : heap_wf h → objs h !! next h = None.
Proof.
  intros Hwf. destruct (objs h !! next h) eqn:E; [|done].
  specialize (Hwf (next h) ltac:(by eexists)). lia.
Qed.

Lemma alloc_wf h o : heap_wf h → heap_wf (snd (alloc o h)).
Proof.
  intros Hwf l. simpl. rewrite lookup_insert. case_decide; [lia|].
  intros Hl. specialize (Hwf l Hl). lia.
Qed.

Lemma alloc_lookup_new h o : objs (snd (alloc o h)) !! fst (alloc o h) = Some o.
Proof. simpl. by rewrite lookup_insert_eq. Qed.

Lemma alloc_incl h o : heap_wf h → heap_incl h (snd (alloc o h)).
Proof.
  intros Hwf. split; simpl; [|lia].
  by apply insert_subseteq, alloc_fresh.
Qed.

Lemma update_wf h l o : is_Some (objs h !! l) → heap_wf h → heap_wf (update l o h).
Proof.
  intros Hl Hwf l'. simpl. rewrite lookup_insert. case_decide; subst; auto.
Qed.

Lemma heap_incl_refl h : heap_incl h h.
Proof. split; [done|lia]. Qed.

Lemma heap_incl_trans h1 h2 h3 : heap_incl h1 h2 → heap_incl h2 h3 → heap_incl h1 h3.
Proof. intros [??] [??]. split; [by etrans|lia]. Qed.

Lemma same_kind_refl o : same_kind o o.
Proof. by destruct o. Qed.

Lemma same_kind_trans o1 o2 o3 : same_kind o1 o2 → same_kind o2 o3 → same_kind o1 o3.
Proof. destruct o1, o2, o3; done. Qed.

Lemma heap_evolves_refl h : heap_evolves h h.
Proof. intros l o Hl. exists o. split; [done|apply same_kind_refl]. Qed.

Lemma heap_evolves_trans h1 h2 h3 :
  heap_evolves h1 h2 → heap_evolves h2 h3 → heap_evolves h1 h3.
Proof.
  intros H12 H23 l o Hl. destruct (H12 l o Hl) as (o2 & Hl2 & K2).
  destruct (H23 l o2 Hl2) as (o3 & Hl3 & K3). exists o3. split; [done|].
  by eapply same_kind_trans.
Qed.

Lemma heap_incl_evolves h h' : heap_incl h h' → heap_evolves h h'.
Proof.
  intros [Hsub _] l o Hl. exists o. split; [|apply same_kind_refl].
  by eapply lookup_weaken.
Qed.

Lemma update_evolves h l o o' :
  objs h !! l = Some o → same_kind o o' → heap_evolves h (update l o' h).
Proof.
  intros Hl Hk l' o'' Hl'. simpl. rewrite lookup_insert. case_decide; subst.
  - exists o'. split; [done|]. by simplify_eq.
  - exists o''. split; [done|apply same_kind_refl].
Qed.

Lemma arrays_grow_refl h : arrays_grow h h.
Proof. intros l a Ha. exists []. by rewrite app_nil_r. Qed.

Lemma arrays_grow_trans h1 h2 h3 : arrays_grow h1 h2 → arrays_grow h2 h3 → arrays_grow h1 h3.
Proof.
  intros H12 H23 l a Ha. destruct (H12 l a Ha) as (a2 & Ha2).
  destruct (H23 l _ Ha2) as (a3 & Ha3). exists (a2 ++ a3). by rewrite app_assoc.
Qed.


Lemma read_array_update h l l' o :
  read_array (update l o h) l' = if decide (l = l') then array_of o else read_array h l'.
Proof. unfold read_array. simpl. rewrite lookup_insert. by case_decide. Qed.

Lemma read_env_update h l l' o :
  read_env (update l o h) l' = if decide (l = l') then env_of o else read_env h l'.
Proof. unfold read_env. simpl. rewrite lookup_insert. by case_decide. Qed.

Lemma read_array_update_ne h l l' o : l ≠ l' → read_array (update l o h) l' = read_array h l'.
Proof. intros. rewrite read_array_update. by case_decide. Qed.

Lemma read_env_update_ne h l l' o : l ≠ l' → read_env (update l o h) l' = read_env h l'.
Proof. intros. rewrite read_env_update. by case_decide. Qed.

Lemma get_count_update_ne h l l' o : l ≠ l' → get_count (update l o h) l' = get_count h l'.
Proof. intros. unfold get_count. simpl. by rewrite lookup_insert_ne. Qed.

Lemma get_count_incl h h' l n : heap_incl h h' → get_count h l = Some n → get_count h' l = Some n.
Proof.
  intros [Hsub _]. unfold get_count. destruct (objs h !! l) as [o|] eqn:E; [|done].
  by rewrite (lookup_weaken _ _ _ _ E Hsub).
Qed.

(** A state object is neither an environment nor an array. *)
Lemma get_count_env_ne h s l p n : read_env h s = Some p → get_count h l = Some n → s ≠ l.
Proof.
  unfold read_env, get_count. intros Hs Hl ->.
  destruct (objs h !! l) as [[]|]; simplify_eq/=.
Qed.

Lemma heap_wf_dec h : map_Forall (λ l _, (l < next h)%positive) (objs h) → heap_wf h.
Proof. intros H l [o Ho]. exact (H l o Ho). Qed.

Lemma read_array_update_eq h l a : read_array (update l (OArray a) h) l = Some a.
Proof. rewrite read_array_update. by case_decide. Qed.

Lemma read_env_update_eq h l s ls : read_env (update l (OEnv s ls) h) l = Some (s, ls).
Proof. rewrite read_env_update. by case_decide. Qed.

Lemma read_array_alloc h o l :
  read_array (snd (alloc o h)) l = if decide (next h = l) then array_of o else read_array h l.
Proof. unfold read_array. simpl. rewrite lookup_insert. by case_decide. Qed.

Lemma read_env_alloc h o l :
  read_env (snd (alloc o h)) l = if decide (next h = l) then env_of o else read_env h l.
Proof. unfold read_env. simpl. rewrite lookup_insert. by case_decide. Qed.

Lemma alloc_fst h o : fst (alloc o h) = next h.
Proof. done. Qed.

(** An environment is not an array. *)
Lemma read_env_array_ne h s l p a : read_env h s = Some p → read_array h l = Some a → s ≠ l.
Proof.
  unfold read_env, read_array. intros Hs Hl ->.
  destruct (objs h !! l) as [[]|]; simplify_eq/=.
Qed.

(** Writing below the bound of a well-formed heap keeps it well formed. *)
Lemma heap_wf_insert m nx l o nx' :
  heap_wf (mkHeap m nx) → (l < nx')%positive → (nx ≤ nx')%positive →
  heap_wf (mkHeap (<[l:=o]> m) nx').
Proof.
  intros Hwf Hl Hle l' Hl'. simpl in *. apply lookup_insert_is_Some' in Hl' as [<-|Hl']; [done|].
  specialize (Hwf l' Hl'). simpl in Hwf. lia.
Qed.

Lemma heap_wf_next_le m nx nx' :
  heap_wf (mkHeap m nx) → (nx ≤ nx')%positive → heap_wf (mkHeap m nx').
Proof. intros Hwf Hle l Hl. specialize (Hwf l Hl). simpl in *. lia. Qed.

(** In a well-formed heap, every object a read finds lies below [next]. *)
Lemma read_array_lt h l a : heap_wf h → read_array h l = Some a → (l < next h)%positive.
Proof.
  intros Hwf H. apply Hwf. unfold read_array in H.
  destruct (objs h !! l) as [o|] eqn:E; [by exists o|simpl in H; discriminate].
Qed.

Lemma read_env_lt h l p : heap_wf h → read_env h l = Some p → (l < next h)%positive.
Proof.
  intros Hwf H. apply Hwf. unfold read_env in H.
  destruct (objs h !! l) as [o|] eqn:E; [by exists o|simpl in H; discriminate].
Qed.

Lemma get_count_lt h l n : heap_wf h → get_count h l = Some n → (l < next h)%positive.
Proof.
  intros Hwf H. apply Hwf. unfold get_count in H.
  destruct (objs h !! l) as [o|] eqn:E; [by exists o|discriminate].
Qed.

Lemma read_array_incl h h' l a : heap_incl h h' → read_array h l = Some a → read_array h' l = Some a.
Proof.
  intros [Hsub _]. unfold read_array. destruct (objs h !! l) as [o|] eqn:E; [|done].
  by rewrite (lookup_weaken _ _ _ _ E Hsub).
Qed.

Lemma read_env_incl h h' l p : heap_incl h h' → read_env h l = Some p → read_env h' l = Some p.
Proof.
  intros [Hsub _]. unfold read_env. destruct (objs h !! l) as [o|] eqn:E; [|done].
  by rewrite (lookup_weaken _ _ _ _ E Hsub).
Qed.

Lemma read_array_evolves h h' l a : heap_evolves h h' → read_array h l = Some a → is_Some (read_array h' l).
Proof.
  unfold read_array. intros Hev Hl. destruct (objs h !! l) as [o|] eqn:E; [|done].
  destruct (Hev l o E) as (o' & -> & Hk). destruct o, o'; simplify_eq/=; done.
Qed.

Lemma read_env_evolves h h' l p : heap_evolves h h' → read_env h l = Some p → is_Some (read_env h' l).
Proof.
  unfold read_env. intros Hev Hl. destruct (objs h !! l) as [o|] eqn:E; [|done].
  destruct (Hev l o E) as (o' & -> & Hk). destruct o, o'; simplify_eq/=; done.
Qed.

Lemma heap_incl_arrays_grow h h' : heap_incl h h' → arrays_grow h h'.
Proof.
  intros Hi l a Ha. exists []. rewrite app_nil_r. by eapply read_array_incl.
Qed.

(** Pushing onto an array, or writing an environment, lets arrays grow. *)
Lemma update_push_grow h l a a' :
  read_array h l = Some a → arrays_grow h (update l (OArray (a ++ a')) h).
Proof.
  intros Hl l' b Hb. destruct (decide (l = l')) as [<-|Hne].
  - rewrite Hl in Hb. simplify_eq. exists a'. apply read_array_update_eq.
  - exists []. rewrite app_nil_r, read_array_update_ne by done. done.
Qed.

Lemma update_env_grow h l s ls :
  (∀ a, read_array h l ≠ Some a) → arrays_grow h (update l (OEnv s ls) h).
Proof.
  intros Hl l' b Hb. destruct (decide (l = l')) as [<-|Hne].
  - by destruct (Hl b).
  - exists []. rewrite app_nil_r, read_array_update_ne by done. done.
Qed.
End heap_lemmas.

#[export] Hint Resolve alloc_wf alloc_incl update_wf heap_incl_refl heap_evolves_refl
  arrays_grow_refl same_kind_refl heap_incl_evolves heap_incl_arrays_grow : js.
