(* ===== verification/Reducer.v ===== *)
(** * The reducer of [src/src/App.js] (lines 4-20)

    [reducer(state, action)] switches on [action.type] with strict
    equality: [INCREMENT] allocates [{ count: state.count + 1 }],
    [DECREMENT] allocates [{ count: state.count - 1 }], any other value
    returns the argument [state] itself.  [state.count + 1] is a binary64
    addition ([JsNumber.js_add]).

    Theorems: the three branches; the reducer only allocates (the laws
    [Store.v] asks of a reducer); on safe integers it adds or subtracts
    exactly one; at [2^53] the increment is absorbed by rounding, so
    from [initialState] the count behaves as a counter saturating at
    [-2^53] and [2^53]; INCREMENT then DECREMENT gives back the count
    below [2^53]. *)

From stdpp Require Import base gmap list strings.
From Stdlib Require Import ZArith Lia.
From S2P Require Import Prelude JsNumber Heap.

Module Reducer.
Local Open Scope Z_scope.

(** ** Definitions *)

Definition INCREMENT : string := "INCREMENT".
Definition DECREMENT : string := "DECREMENT".

(** [const initialState = { count: 0 }]: the literal [0] is [+0]. *)
Definition initialState : State := {| count := of_Z 0 |}.

Definition reducer (h : heap) (state : loc) (action : Action) : loc * heap :=
  match type action with
  | Some t =>
      if decide (t = INCREMENT) then
        alloc (OState {| count := js_add (to_number (get_count h state)) (of_Z 1) |}) h
      else if decide (t = DECREMENT) then
        alloc (OState {| count := js_sub (to_number (get_count h state)) (of_Z 1) |}) h
      else (state, h)
  | None => (state, h)
  end.

(** The value a dispatch of [action] gives to [count], on the Number
    [n] (the content of the object the reducer allocates). *)
Definition step_count (action : Action) (n : number) : number :=
  match type action with
  | Some t =>
      if decide (t = INCREMENT) then js_add n (of_Z 1)
      else if decide (t = DECREMENT) then js_sub n (of_Z 1)
      else n
  | None => n
  end.

(** The two actions the UI dispatches (lines 82-83). *)
Definition inc_action : Action := {| type := Some INCREMENT |}.
Definition dec_action : Action := {| type := Some DECREMENT |}.

(** The count as an integer counter saturating at [± 2^53]. *)
Definition sat_count (action : Action) (n : Z) : Z :=
  match type action with
  | Some t =>
      if decide (t = INCREMENT) then Z.min (n + 1) two53
      else if decide (t = DECREMENT) then Z.max (n - 1) (- two53)
      else n
  | None => n
  end.

(** ** Lemmas *)

Lemma INCREMENT_ne_DECREMENT : INCREMENT ≠ DECREMENT.
Proof. done. Qed.

(** The reducer only allocates: it extends the heap. *)
Lemma reducer_incl h st a : heap_wf h → heap_incl h (snd (reducer h st a)).
Proof.
  intros Hwf. unfold reducer.
  destruct (type a) as [t|]; [|apply heap_incl_refl].
  repeat case_decide; eauto with js.
Qed.

Lemma reducer_wf h st a : heap_wf h → heap_wf (snd (reducer h st a)).
Proof.
  intros Hwf. unfold reducer.
  destruct (type a) as [t|]; [|done].
  repeat case_decide; eauto with js.
Qed.

(** The object the reducer returns holds [step_count] of the count of
    its argument, whichever branch is taken (the default branch returns
    the argument itself). *)
Lemma reducer_count h st a n :
  heap_wf h → get_count h st = Some n →
  get_count (snd (reducer h st a)) (fst (reducer h st a)) = Some (step_count a n).
Proof.
  intros Hwf Hn. unfold reducer, step_count.
  destruct (type a) as [t|]; [|done].
  repeat case_decide; try done; unfold get_count; rewrite alloc_lookup_new;
    unfold get_count in Hn; destruct (objs h !! st) as [[]|]; simplify_eq; done.
Qed.

(** (C13) INCREMENT on a state whose count [n] is a safe integer below
    [2^53]: the reducer allocates a new state object whose count is
    exactly [n + 1]. *)
Theorem reducer_increment h st n :
  get_count h st = Some (of_Z n) → - two53 ≤ n < two53 →
  reducer h st inc_action
  = alloc (OState {| count := of_Z (n + 1) |}) h.
Proof.
  intros Hn Hb. unfold reducer, inc_action. cbn [type].
  rewrite decide_True by done. rewrite Hn. cbn [to_number]. rewrite js_add_exact; unfold two53 in *; [done|lia..].
Qed.

(** (C14) DECREMENT on a state whose count [n] is a safe integer above
    [-2^53]: a new state object whose count is exactly [n - 1]. *)
Theorem reducer_decrement h st n :
  get_count h st = Some (of_Z n) → - two53 < n ≤ two53 →
  reducer h st dec_action
  = alloc (OState {| count := of_Z (n - 1) |}) h.
Proof.
  intros Hn Hb. unfold reducer, dec_action. cbn [type].
  rewrite decide_False by done. rewrite decide_True by done.
  rewrite Hn. cbn [to_number]. rewrite js_sub_exact; unfold two53 in *; [done|lia..].
Qed.

(** (C15) Any action whose type is neither INCREMENT nor DECREMENT
    returns the very same state object and leaves the heap untouched. *)
Theorem reducer_default h st a :
  (∀ t, type a = Some t → t ≠ INCREMENT ∧ t ≠ DECREMENT) →
  reducer h st a = (st, h).
Proof.
  intros Ht. unfold reducer. destruct (type a) as [t|] eqn:E; [|done].
  destruct (Ht t eq_refl). by rewrite !decide_False.
Qed.

(** At [2^53] the increment is lost: [2^53 + 1] is a tie between
    [2^53] and [2^53 + 2], and rounding to even keeps [2^53]. *)
Lemma add_two53_absorbed : js_add (of_Z two53) (of_Z 1) = of_Z two53.
Proof. vm_compute. reflexivity. Qed.

Lemma sub_two53_absorbed : js_sub (of_Z (- two53)) (of_Z 1) = of_Z (- two53).
Proof. vm_compute. reflexivity. Qed.

(** On the Numbers [of_Z n], [|n| ≤ 2^53], [step_count] is the
    saturating counter [sat_count]. *)
Theorem step_count_saturates a n :
  - two53 ≤ n ≤ two53 → step_count a (of_Z n) = of_Z (sat_count a n).
Proof.
  intros Hb. unfold step_count, sat_count.
  destruct (type a) as [t|]; [|done].
  case_decide; [|case_decide; [|done]].
  - destruct (decide (n = two53)) as [->|Hn].
    + rewrite add_two53_absorbed. f_equal; lia.
    + rewrite js_add_exact by (unfold two53 in *; lia). f_equal; lia.
  - destruct (decide (n = - two53)) as [->|Hn].
    + rewrite sub_two53_absorbed. f_equal; lia.
    + rewrite js_sub_exact by (unfold two53 in *; lia). f_equal; lia.
Qed.

Lemma sat_count_bounds a n : - two53 ≤ n ≤ two53 → - two53 ≤ sat_count a n ≤ two53.
Proof.
  intros Hb. unfold sat_count. unfold two53 in *.
  destruct (type a) as [t|]; [|lia]. repeat case_decide; lia.
Qed.

(** ** Properties *)

(** (C3) On a state whose count is the integer [n], [|n| ≤ 2^53], the
    state object [reducer(state, action)] returns holds the saturating
    counter [sat_count]: [n+1] (at most [2^53]) for INCREMENT, [n-1]
    (at least [-2^53]) for DECREMENT, [n] for any other action. *)
Theorem reducer_saturates h st a n :
  heap_wf h → get_count h st = Some (of_Z n) → - two53 ≤ n ≤ two53 →
  get_count (snd (reducer h st a)) (fst (reducer h st a)) = Some (of_Z (sat_count a n)).
Proof.
  intros Hwf Hn Hb. rewrite (reducer_count h st a _ Hwf Hn). by rewrite step_count_saturates.
Qed.

(** (C22) Round trip: an INCREMENT followed by a DECREMENT gives back a
    state whose count is the original integer [n], for every
    [-2^53 ≤ n < 2^53]; at [n = 2^53] the increment is lost and the
    round trip ends at [2^53 - 1]. *)
Theorem increment_decrement_roundtrip h st n :
  heap_wf h → get_count h st = Some (of_Z n) → - two53 ≤ n < two53 →
  let '(st1, h1) := reducer h st inc_action in
  let '(st2, h2) := reducer h1 st1 dec_action in
  get_count h2 st2 = Some (of_Z n).
Proof.
  intros Hwf Hn Hb. destruct (reducer h st inc_action) as [st1 h1] eqn:Hr1.
  destruct (reducer h1 st1 dec_action) as [st2 h2] eqn:Hr2.
  pose proof (reducer_count h st inc_action _ Hwf Hn) as Hn1. rewrite Hr1 in Hn1. simpl in Hn1.
  pose proof (reducer_wf h st inc_action Hwf) as Hwf1. rewrite Hr1 in Hwf1. simpl in Hwf1.
  assert (E1 : sat_count inc_action n = n + 1).
  { unfold sat_count, inc_action. cbn [type]. rewrite decide_True by done. unfold two53 in *. lia. }
  assert (E2 : sat_count dec_action (n + 1) = n).
  { unfold sat_count, dec_action. cbn [type].
    rewrite decide_False by done. rewrite decide_True by done. unfold two53 in *. lia. }
  rewrite step_count_saturates, E1 in Hn1 by (unfold two53 in *; lia).
  pose proof (reducer_count h1 st1 dec_action _ Hwf1 Hn1) as Hn2. rewrite Hr2 in Hn2. simpl in Hn2.
  by rewrite step_count_saturates, E2 in Hn2 by (unfold two53 in *; lia).
Qed.
End Reducer.
