(* ===== verification/Store.v ===== *)
(** * [createStore] of [src/src/App.js] (lines 22-43) as a small-step machine

    A call [createStore(reducer, initialState)] allocates a closure
    environment holding [let state] and [let listeners] and returns
    [{ getState, dispatch, subscribe }]; the store is identified here by
    that environment.  Listeners are JavaScript functions that may call
    back into any store while [dispatch] is notifying, so the model is a
    machine whose configurations pair a [world] (heap, function bodies,
    the external state listeners act on, a log of listener calls) with a
    stack of pending commands:

    - [CDispatch s a]: [state = reducer(state, action)] (line 29), then
      [listeners.forEach(listener => listener())] (line 30), which
      becomes [CForEach arr 0 len] on the array [arr] held by
      [listeners] at that moment, [len] its length then;
    - [CForEach arr i len]: one iteration of [forEach] (ECMA-262
      Array.prototype.forEach: the length is read once, each index is
      re-read from the array, holes are skipped, a non-function throws);
    - [CSubscribe s f]: [listeners.push(listener)] (line 34);
    - [CUnsubscribe s f]: a call of the closure returned by
      [subscribe(f)]: [listeners = listeners.filter(l => l !== f)]
      (line 38);
    - [CExt s e]: a statement of the listener's own (e.g. React's
      [setState]) given the value of [s.getState()].

    The machine is generic in the reducer (the interface [StoreReducer]
    with its laws) and in the external statements ([ext]). *)

From stdpp Require Import base gmap list relations strings.
From S2P Require Import Prelude JsNumber Heap.

(** ** The reducer interface

    What [createStore] needs of its [reducer] argument: a function of the
    heap, the current state object and the action, that only allocates
    new state objects, and returns a state object when given one. *)
Class StoreReducer := reduce : heap → loc → Action → loc * heap.

Class StoreReducerLaws (R : StoreReducer) := {
  reduce_incl h st a : heap_wf h → heap_incl h (snd (reduce h st a));
  reduce_wf h st a : heap_wf h → heap_wf (snd (reduce h st a));
  reduce_new_states h st a l o :
    heap_wf h → objs h !! l = None → objs (snd (reduce h st a)) !! l = Some o →
    ∃ s, o = OState s;
  reduce_state h st a v :
    heap_wf h → objs h !! st = Some (OState v) →
    ∃ v', objs (snd (reduce h st a)) !! fst (reduce h st a) = Some (OState v')
}.

Module Store.

Section machine.
Context {E X : Type}.
(** [ext e st x]: the effect of the external statement [e] on [x], when
  [getState()] returns [st]. *)
Context (ext : E → loc → X → X).
Context `{R : StoreReducer}.

Inductive cmd :=
| CDispatch (s : loc) (a : Action)
| CSubscribe (s : loc) (f : fid)
| CUnsubscribe (s : loc) (f : fid)
| CExt (s : loc) (e : E)
| CForEach (arr : loc) (i len : nat).

(** [w_calls] is a ghost log: the listeners called so far, in order. *)
Record world := mkWorld {
w_heap : heap;
w_code : gmap fid (list cmd);
w_ext : X;
w_calls : list fid
}.

Definition config : Type := world * list cmd.

Definition with_heap (h : heap) (w : world) : world :=
mkWorld h (w_code w) (w_ext w) (w_calls w).
Definition with_ext (x : X) (w : world) : world :=
mkWorld (w_heap w) (w_code w) x (w_calls w).
Definition log_call (f : fid) (w : world) : world :=
mkWorld (w_heap w) (w_code w) (w_ext w) (w_calls w ++ [f]).

(** ** The public functions *)

(** [let state = initialState; let listeners = [];] *)
Definition createStore (h : heap) (initialState : loc) : loc * heap :=
let '(ls, h1) := alloc (OArray []) h in
alloc (OEnv initialState ls) h1.

(** [getState = () => state] *)
Definition getState (h : heap) (s : loc) : option loc :=
fst <$> read_env h s.

(** The contents of the array [listeners] currently holds. *)
Definition listeners_of (h : heap) (s : loc) : option (list fid) :=
read_env h s ≫= λ '(_, ls), read_array h ls.

(** ** One step of the machine *)

Definition step (c : config) : option config :=
let '(w, k) := c in
let h := w_heap w in
match k with
| [] => None
| CDispatch s a :: k' =>
    match read_env h s with
    | Some (st, ls) =>
        let '(st', h1) := reduce h st a in
        let h2 := update s (OEnv st' ls) h1 in
        match read_array h2 ls with
        | Some fs => Some (with_heap h2 w, CForEach ls 0 (length fs) :: k')
        | None => None
        end
    | None => None
    end
| CForEach arr i len :: k' =>
    match read_array h arr with
    | Some fs =>
        if decide (i < len) then
          match fs !! i with
          | Some f =>
              match w_code w !! f with
              | Some body => Some (log_call f w, body ++ CForEach arr (S i) len :: k')
              | None => None
              end
          | None => Some (w, CForEach arr (S i) len :: k')
          end
        else Some (w, k')
    | None => None
    end
| CSubscribe s f :: k' =>
    match read_env h s with
    | Some (_, ls) =>
        match read_array h ls with
        | Some fs => Some (with_heap (update ls (OArray (fs ++ [f])) h) w, k')
        | None => None
        end
    | None => None
    end
| CUnsubscribe s f :: k' =>
    match read_env h s with
    | Some (st, ls) =>
        match read_array h ls with
        | Some fs =>
            let '(ls', h1) := alloc (OArray (js_remove f fs)) h in
            Some (with_heap (update s (OEnv st ls') h1) w, k')
        | None => None
        end
    | None => None
    end
| CExt s e :: k' =>
    match read_env h s with
    | Some (st, _) => Some (with_ext (ext e st (w_ext w)) w, k')
    | None => None
    end
end.

(** The same transitions as an inductive relation, one rule per branch
  of the code. *)
Inductive cstep : config → config → Prop :=
| cstep_dispatch w s a k st ls st' h1 fs :
    read_env (w_heap w) s = Some (st, ls) →
    reduce (w_heap w) st a = (st', h1) →
    read_array (update s (OEnv st' ls) h1) ls = Some fs →
    cstep (w, CDispatch s a :: k)
          (with_heap (update s (OEnv st' ls) h1) w, CForEach ls 0 (length fs) :: k)
| cstep_foreach_call w arr i len k fs f body :
    read_array (w_heap w) arr = Some fs → i < len → fs !! i = Some f →
    w_code w !! f = Some body →
    cstep (w, CForEach arr i len :: k) (log_call f w, body ++ CForEach arr (S i) len :: k)
| cstep_foreach_hole w arr i len k fs :
    read_array (w_heap w) arr = Some fs → i < len → fs !! i = None →
    cstep (w, CForEach arr i len :: k) (w, CForEach arr (S i) len :: k)
| cstep_foreach_done w arr i len k fs :
    read_array (w_heap w) arr = Some fs → ¬ i < len →
    cstep (w, CForEach arr i len :: k) (w, k)
| cstep_subscribe w s f k st ls fs :
    read_env (w_heap w) s = Some (st, ls) → read_array (w_heap w) ls = Some fs →
    cstep (w, CSubscribe s f :: k) (with_heap (update ls (OArray (fs ++ [f])) (w_heap w)) w, k)
| cstep_unsubscribe w s f k st ls fs ls' h1 :
    read_env (w_heap w) s = Some (st, ls) → read_array (w_heap w) ls = Some fs →
    alloc (OArray (js_remove f fs)) (w_heap w) = (ls', h1) →
    cstep (w, CUnsubscribe s f :: k) (with_heap (update s (OEnv st ls') h1) w, k)
| cstep_ext w s e k st ls :
    read_env (w_heap w) s = Some (st, ls) →
    cstep (w, CExt s e :: k) (with_ext (ext e st (w_ext w)) w, k).

(** ** Running with fuel *)

Inductive outcome :=
| Done (w : world)          (** the stack emptied: the call returned *)
| Stuck (c : config)        (** a TypeError (never, by [Safety]) *)
| OutOfFuel (c : config).

Fixpoint run (fuel : nat) (c : config) : outcome :=
match c with
| (w, []) => Done w
| _ =>
    match fuel with
    | 0 => OutOfFuel c
    | S n => match step c with Some c' => run n c' | None => Stuck c end
    end
end.

(** The API called from outside any listener (event handlers, effects):
  one command run to completion. *)
Definition dispatch (fuel : nat) (w : world) (s : loc) (a : Action) : outcome :=
run fuel (w, [CDispatch s a]).
Definition subscribe (w : world) (s : loc) (f : fid) : outcome :=
run 1 (w, [CSubscribe s f]).
Definition unsubscribe (w : world) (s : loc) (f : fid) : outcome :=
run 1 (w, [CUnsubscribe s f]).

End machine.

Arguments cmd : clear implicits.
Arguments world : clear implicits.
Arguments config : clear implicits.
Arguments outcome : clear implicits.

(** ** The interpreter and the relation agree; fuel *)

Section machine_lemmas.
Context {E X : Type} (ext : E → loc → X → X) `{R : StoreReducer}.

Local Abbreviation step := (step ext).
Local Abbreviation cstep := (cstep ext).
Local Abbreviation run := (run ext).

(** The executable [step] computes exactly the transitions of [cstep]. *)
Lemma step_iff_cstep (c c' : config E X) : step c = Some c' ↔ cstep c c'.
Proof.
  split.
  - destruct c as [w [|[] k]]; cbn [step]; [done| | | | |]; intros Hs;
      repeat (case_match; simplify_eq); econstructor; eauto.
  - intros Hc. destruct Hc; cbn [step];
      repeat match goal with H : _ = _ |- _ => rewrite H; clear H end;
      repeat (case_decide; try lia); done.
Qed.

Lemma cstep_det (c c1 c2 : config E X) : cstep c c1 → cstep c c2 → c1 = c2.
Proof. rewrite <- !step_iff_cstep. congruence. Qed.

Lemma cstep_nonempty (w : world E X) k c' : cstep (w, k) c' → k ≠ [].
Proof. by inversion 1. Qed.

Lemma run_S n (w : world E X) c k :
run (S n) (w, c :: k)
= match step (w, c :: k) with Some c' => run n c' | None => Stuck (w, c :: k) end.
Proof. reflexivity. Qed.

(** [n] steps to an empty stack: [run] with fuel [n] returns. *)
Lemma run_nsteps n (c : config E X) w :
nsteps cstep n c (w, []) → run n c = Done w.
Proof.
  remember (w, []) as cf eqn:Hcf.
  induction 1 as [c|n c c1 c2 Hs Hn IH]; [by subst|].
  destruct c as [w0 k]. pose proof (cstep_nonempty _ _ _ Hs) as Hk.
  apply step_iff_cstep in Hs. destruct k; [by destruct Hk|]. rewrite run_S, Hs. by apply IH.
Qed.

Lemma run_sound n (c : config E X) w : run n c = Done w → rtc cstep c (w, []).
Proof.
  revert c. induction n as [|n IH]; intros [w0 k] Hr.
  - destruct k; simplify_eq/=. done.
  - destruct k; [by simplify_eq/=|]. rewrite run_S in Hr.
    destruct (step _) as [c'|] eqn:Hs; [|done].
    apply step_iff_cstep in Hs. eapply rtc_l; [exact Hs|]. by apply IH.
Qed.

(** Enough fuel gives the result. *)
Lemma run_of_rtc (c : config E X) w : rtc cstep c (w, []) → ∃ n, run n c = Done w.
Proof.
  intros H. apply rtc_nsteps in H as [n Hn]. exists n. by apply run_nsteps.
Qed.

Lemma run_mono n m (c : config E X) w : run n c = Done w → n ≤ m → run m c = Done w.
Proof.
  revert m c. induction n as [|n IH]; intros m [w0 k] Hr Hle.
  - destruct k; simplify_eq/=. by destruct m.
  - destruct k as [|x k]; [by destruct m|]. destruct m as [|m]; [lia|].
    rewrite run_S in *. destruct (step _); [|done]. apply IH; [done|lia].
Qed.

(** [subscribe(f)] and the unsubscribe closure, each one statement, in
    one step: the array pushed in place, or replaced by a fresh filtered
    copy. *)
Lemma subscribe_done (w : world E X) s f st ls fs :
  read_env (w_heap w) s = Some (st, ls) → read_array (w_heap w) ls = Some fs →
  subscribe ext w s f = Done (with_heap (update ls (OArray (fs ++ [f])) (w_heap w)) w).
Proof.
  intros Hs Hls. unfold subscribe. rewrite run_S.
  by rewrite (proj2 (step_iff_cstep _ _) (cstep_subscribe ext w s f [] st ls fs Hs Hls)).
Qed.

Lemma unsubscribe_done (w : world E X) s f st ls fs :
  read_env (w_heap w) s = Some (st, ls) → read_array (w_heap w) ls = Some fs →
  unsubscribe ext w s f
  = Done (with_heap (update s (OEnv st (next (w_heap w)))
                            (snd (alloc (OArray (js_remove f fs)) (w_heap w)))) w).
Proof.
  intros Hs Hls. unfold unsubscribe. rewrite run_S.
  by rewrite (proj2 (step_iff_cstep _ _)
                (cstep_unsubscribe ext w s f [] st ls fs _ _ Hs Hls eq_refl)).
Qed.

End machine_lemmas.

End Store.
