(* ===== verification/StoreSafety.v ===== *)
(** * Safety of the store machine: it never throws

    The only ways the code of [createStore] could fail are a call of a
    value that is not a function ([listener()] on line 30), a property
    read on something that is not an array ([forEach], [push], [filter])
    or a store that does not exist.  The invariant [wf_config] says that
    none of these can happen: environments hold arrays, arrays hold
    functions, every pending command refers to live objects.  It holds
    of a fresh store ([createStore_wf]), every transition preserves it
    ([cstep_wf]) and a configuration satisfying it can always make
    a step unless its stack is empty ([progress]); hence no reachable
    configuration is stuck ([safety]).

    On a well-formed world the two list operations of the API behave as
    the code says: [subscribe] appends to the array in place
    ([subscribe_listeners]); the unsubscribe closure replaces the array
    by a filtered copy that no longer contains the function anywhere
    ([unsubscribe_filters]), so a second call changes nothing
    ([unsubscribe_idemp]) and one unsubscribe cancels every
    registration of the same function; [subscribe] followed by its
    unsubscribe gives back the listeners of before when the function was
    not subscribed yet ([subscribe_unsubscribe_roundtrip]). *)

From stdpp Require Import base gmap list relations strings.
From S2P Require Import Prelude JsNumber Heap Store.

Import Store.

Section store_safety.
Context {E X : Type} (ext : E → loc → X → X) `{R : StoreReducer} `{!StoreReducerLaws R}.

Local Abbreviation cstep := (cstep ext).

(** ** Definitions *)

(** Every [listeners] variable holds an array. *)
Definition envs_ok (h : heap) : Prop :=
  ∀ s st ls, read_env h s = Some (st, ls) → is_Some (read_array h ls).

(** Every element of every array is a function. *)
Definition fids_ok (w : world E X) : Prop :=
  ∀ l a f, read_array (w_heap w) l = Some a → f ∈ a → is_Some (w_code w !! f).

Definition cmd_ok (w : world E X) (c : cmd E) : Prop :=
  match c with
  | CDispatch s _ | CUnsubscribe s _ | CExt s _ => is_Some (read_env (w_heap w) s)
  | CSubscribe s f => is_Some (read_env (w_heap w) s) ∧ is_Some (w_code w !! f)
  | CForEach arr _ _ => is_Some (read_array (w_heap w) arr)
  end.

Definition code_ok (w : world E X) : Prop :=
  ∀ f body, w_code w !! f = Some body → Forall (cmd_ok w) body.

Record wf_world (w : world E X) : Prop := {
  wf_heap : heap_wf (w_heap w);
  wf_envs : envs_ok (w_heap w);
  wf_fids : fids_ok w;
  wf_code : code_ok w
}.

Definition wf_config (c : config E X) : Prop :=
  wf_world c.1 ∧ Forall (cmd_ok c.1) c.2.

(** An executable check of [wf_world] on a concrete world. *)
Definition env_okb (h : heap) (o : obj) : bool :=
  match o with OEnv _ ls => bool_decide (is_Some (read_array h ls)) | _ => true end.

Definition fids_okb (w : world E X) (o : obj) : bool :=
  match o with
  | OArray a => forallb (λ f, bool_decide (is_Some (w_code w !! f))) a
  | _ => true
  end.

Definition cmd_okb (w : world E X) (c : cmd E) : bool :=
  match c with
  | CDispatch s _ | CUnsubscribe s _ | CExt s _ => bool_decide (is_Some (read_env (w_heap w) s))
  | CSubscribe s f =>
      bool_decide (is_Some (read_env (w_heap w) s)) && bool_decide (is_Some (w_code w !! f))
  | CForEach arr _ _ => bool_decide (is_Some (read_array (w_heap w) arr))
  end.

Definition wf_checkb (w : world E X) : bool :=
  let h := w_heap w in
  bool_decide (map_Forall (λ l _, (l < next h)%positive) (objs h)) &&
  bool_decide (map_Forall (λ _ o, env_okb h o = true) (objs h)) &&
  bool_decide (map_Forall (λ _ o, fids_okb w o = true) (objs h)) &&
  bool_decide (map_Forall (λ _ body, forallb (cmd_okb w) body = true) (w_code w)).

(** ** Lemmas *)

Lemma read_env_lookup h s st ls : read_env h s = Some (st, ls) ↔ objs h !! s = Some (OEnv st ls).
Proof.
  unfold read_env. destruct (objs h !! s) as [[]|]; simpl; split; intros; simplify_eq; done.
Qed.

(** The reducer creates neither environments nor arrays. *)
Lemma reduce_read_env_back h st a l p :
  heap_wf h → read_env (snd (reduce h st a)) l = Some p → read_env h l = Some p.
Proof.
  intros Hwf Hl. unfold read_env in *.
  destruct (objs h !! l) as [o|] eqn:Ho.
  - pose proof (lookup_weaken _ _ _ _ Ho (proj1 (reduce_incl h st a Hwf))) as E'.
    by rewrite E' in Hl.
  - destruct (objs (snd (reduce h st a)) !! l) as [o|] eqn:E'; [|done].
    destruct (reduce_new_states h st a l o Hwf Ho E') as [? ->]. done.
Qed.

Lemma reduce_read_array_back h st a l p :
  heap_wf h → read_array (snd (reduce h st a)) l = Some p → read_array h l = Some p.
Proof.
  intros Hwf Hl. unfold read_array in *.
  destruct (objs h !! l) as [o|] eqn:Ho.
  - pose proof (lookup_weaken _ _ _ _ Ho (proj1 (reduce_incl h st a Hwf))) as E'.
    by rewrite E' in Hl.
  - destruct (objs (snd (reduce h st a)) !! l) as [o|] eqn:E'; [|done].
    destruct (reduce_new_states h st a l o Hwf Ho E') as [? ->]. done.
Qed.

Lemma cmd_ok_evolve w w' c :
  heap_evolves (w_heap w) (w_heap w') → w_code w' = w_code w → cmd_ok w c → cmd_ok w' c.
Proof.
  intros Hev Hc. unfold cmd_ok. rewrite Hc.
  destruct c; [intros [[] ?] | intros [[[] ?] ?] | intros [[] ?] | intros [[] ?] | intros [? ?]];
    repeat split; eauto using read_env_evolves, read_array_evolves.
Qed.

Lemma cmds_ok_evolve w w' k :
  heap_evolves (w_heap w) (w_heap w') → w_code w' = w_code w →
  Forall (cmd_ok w) k → Forall (cmd_ok w') k.
Proof. intros ???. eapply Forall_impl; [done|]. eauto using cmd_ok_evolve. Qed.

Lemma code_ok_evolve w w' :
  heap_evolves (w_heap w) (w_heap w') → w_code w' = w_code w → code_ok w → code_ok w'.
Proof.
  intros Hev Hc Hok f body Hf. rewrite Hc in Hf.
  eapply cmds_ok_evolve; eauto.
Qed.

(** A transition that changes only the heap, in a way that keeps every
    object's kind, preserves [wf_config] when the new heap satisfies
    the heap parts of the invariant. *)
Lemma wf_with_heap w h' k :
  wf_config (w, k) → heap_evolves (w_heap w) h' → heap_wf h' → envs_ok h' →
  fids_ok (with_heap h' w) → wf_config (with_heap h' w, k).
Proof.
  intros [[] Hk] Hev ???. split; [split|]; try done;
    [eapply code_ok_evolve | eapply cmds_ok_evolve]; eauto.
Qed.

Lemma listeners_of_read h s st ls fs :
  read_env h s = Some (st, ls) → read_array h ls = Some fs → listeners_of h s = Some fs.
Proof. intros Hs Hfs. unfold listeners_of. by rewrite Hs. Qed.

Lemma wf_config_cons w c k : wf_config (w, c :: k) → cmd_ok w c ∧ wf_config (w, k).
Proof. intros [Hw Hk]. apply Forall_cons in Hk as [??]. done. Qed.

Lemma preserve_dispatch w s a k st ls st' h1 fs :
  wf_config (w, CDispatch s a :: k) →
  read_env (w_heap w) s = Some (st, ls) → reduce (w_heap w) st a = (st', h1) →
  read_array (update s (OEnv st' ls) h1) ls = Some fs →
  wf_config (with_heap (update s (OEnv st' ls) h1) w, CForEach ls 0 (length fs) :: k).
Proof.
  intros Hc Hs Hred Hfs. apply wf_config_cons in Hc as [_ Hc].
  pose proof Hc as [[Hwf Henv Hfids Hcode] _].
  pose proof (reduce_incl (w_heap w) st a Hwf) as Hi. rewrite Hred in Hi. simpl in Hi.
  assert (Hback_env : ∀ l p, read_env h1 l = Some p → read_env (w_heap w) l = Some p).
  { intros l p Hl. eapply reduce_read_env_back; [done|]. by rewrite Hred. }
  assert (Hback_arr : ∀ l p, read_array h1 l = Some p → read_array (w_heap w) l = Some p).
  { intros l p Hl. eapply reduce_read_array_back; [done|]. by rewrite Hred. }
  assert (Hs1 : objs h1 !! s = Some (OEnv st ls)).
  { apply read_env_lookup in Hs. eapply lookup_weaken; [done|apply Hi]. }
  assert (Hwf1 : heap_wf h1).
  { pose proof (reduce_wf (w_heap w) st a Hwf) as H. by rewrite Hred in H. }
  enough (Hk : wf_config (with_heap (update s (OEnv st' ls) h1) w, k)).
  { destruct Hk as [Hw' Hk']. split; [done|]. constructor; [|done]. simpl. rewrite Hfs. by eexists. }
  apply wf_with_heap; [done| | | |].
  - eapply heap_evolves_trans; [by apply heap_incl_evolves|].
    by eapply update_evolves.
  - apply update_wf; [by eexists|done].
  - intros s' st'' ls'' H. rewrite read_env_update in H. case_decide as Heq.
    + simplify_eq/=. by eexists.
    + apply Hback_env in H. destruct (Henv _ _ _ H) as [b Hb].
      rewrite read_array_update_ne; [|by eapply read_env_array_ne].
      eexists. by eapply read_array_incl.
  - intros l b f H Hf. simpl in H. rewrite read_array_update in H.
    case_decide; [done|]. eapply Hfids; [|done]. by apply Hback_arr.
Qed.

Lemma preserve_subscribe w s f k st ls fs :
  wf_config (w, CSubscribe s f :: k) →
  read_env (w_heap w) s = Some (st, ls) → read_array (w_heap w) ls = Some fs →
  wf_config (with_heap (update ls (OArray (fs ++ [f])) (w_heap w)) w, k).
Proof.
  intros Hc Hs Hls. apply wf_config_cons in Hc as [[_ Hf] Hc].
  pose proof Hc as [[Hwf Henv Hfids Hcode] _].
  assert (Hl : objs (w_heap w) !! ls = Some (OArray fs)).
  { unfold read_array in Hls. destruct (objs (w_heap w) !! ls) as [[]|]; simplify_eq/=; done. }
  apply wf_with_heap; [done| | | |].
  - by eapply update_evolves.
  - apply update_wf; [by eexists|done].
  - intros s' st'' ls'' H. rewrite read_env_update in H. case_decide; [done|].
    rewrite read_array_update. case_decide; [by eexists|]. by eapply Henv.
  - intros l b g H Hg. simpl in H. rewrite read_array_update in H.
    case_decide; simplify_eq/=.
    + apply elem_of_app in Hg as [Hg|Hg]; [by eapply Hfids|].
      apply list_elem_of_singleton in Hg as ->. done.
    + by eapply Hfids.
Qed.

Lemma preserve_unsubscribe w s f k st ls fs ls' h1 :
  wf_config (w, CUnsubscribe s f :: k) →
  read_env (w_heap w) s = Some (st, ls) → read_array (w_heap w) ls = Some fs →
  alloc (OArray (js_remove f fs)) (w_heap w) = (ls', h1) →
  wf_config (with_heap (update s (OEnv st ls') h1) w, k).
Proof.
  intros Hc Hs Hls Ha. apply wf_config_cons in Hc as [_ Hc].
  pose proof Hc as [[Hwf Henv Hfids Hcode] _].
  pose proof (alloc_incl (w_heap w) (OArray (js_remove f fs)) Hwf) as Hi.
  pose proof (alloc_wf (w_heap w) (OArray (js_remove f fs)) Hwf) as Hwf1.
  pose proof (read_env_alloc (w_heap w) (OArray (js_remove f fs))) as Henv1.
  pose proof (read_array_alloc (w_heap w) (OArray (js_remove f fs))) as Harr1.
  pose proof (alloc_fresh (w_heap w) Hwf) as Hfresh.
  rewrite Ha in Hi, Hwf1, Henv1, Harr1. simpl in Hi, Hwf1, Henv1, Harr1.
  assert (ls' = next (w_heap w)) as -> by (rewrite <- (alloc_fst (w_heap w) (OArray (js_remove f fs))), Ha; done).
  assert (Hs1 : objs h1 !! s = Some (OEnv st ls)).
  { apply read_env_lookup in Hs. eapply lookup_weaken; [done|apply Hi]. }
  assert (Hsn : s ≠ next (w_heap w)).
  { intros ->. apply read_env_lookup in Hs. congruence. }
  apply wf_with_heap; [done| | | |].
  - eapply heap_evolves_trans; [by apply heap_incl_evolves|]. by eapply update_evolves.
  - apply update_wf; [by eexists|done].
  - intros s' st'' ls'' H. rewrite read_env_update in H. case_decide; simplify_eq/=.
    + rewrite read_array_update_ne, Harr1 by done. rewrite decide_True by done. by eexists.
    + rewrite Henv1 in H. case_decide; [done|].
      destruct (Henv _ _ _ H) as [b Hb].
      rewrite read_array_update_ne by (by eapply read_env_array_ne).
      eexists. by eapply read_array_incl.
  - intros l b g H Hg. simpl in H. rewrite read_array_update in H.
    case_decide; [done|]. rewrite Harr1 in H. case_decide; simplify_eq/=.
    + apply elem_of_js_remove in Hg as [_ Hg]. by eapply Hfids.
    + by eapply Hfids.
Qed.

Lemma preserve_call w arr i len k fs f body :
  wf_config (w, CForEach arr i len :: k) →
  read_array (w_heap w) arr = Some fs → w_code w !! f = Some body →
  wf_config (log_call f w, body ++ CForEach arr (S i) len :: k).
Proof.
  intros Hc Hfs Hf. pose proof Hc as [[Hwf Henv Hfids Hcode] Hk].
  apply Forall_cons in Hk as [Harr Hk]. simpl in *.
  split; [split; done|]. apply Forall_app. split; [by eapply Hcode|].
  by constructor.
Qed.

(** ** Preservation, progress, safety *)

(** [wf_config] is an invariant of the machine. *)
Theorem cstep_wf c c' : wf_config c → cstep c c' → wf_config c'.
Proof.
  intros Hc Hs. destruct Hs.
  - by eapply preserve_dispatch.
  - by eapply preserve_call.
  - destruct Hc as [Hw Hk]. apply Forall_cons in Hk as [Ha Hk]. split; [done|].
    by constructor.
  - destruct Hc as [Hw Hk]. apply Forall_cons in Hk as [Ha Hk]. by split.
  - by eapply preserve_subscribe.
  - by eapply preserve_unsubscribe.
  - destruct Hc as [[] Hk]. apply Forall_cons in Hk as [Ha Hk]. split; [split; done|done].
Qed.

Lemma rtc_preserves c c' : wf_config c → rtc cstep c c' → wf_config c'.
Proof. intros Hc Hs. induction Hs; eauto using cstep_wf. Qed.

(** A well-formed configuration with a pending command can step. *)
Theorem cstep_progress w c k : wf_config (w, c :: k) → ∃ c', cstep (w, c :: k) c'.
Proof.
  intros Hc. pose proof Hc as [[Hwf Henv Hfids Hcode] _].
  apply wf_config_cons in Hc as [Hok _].
  destruct c as [s a|s f|s f|s e|arr i len]; simpl in Hok.
  - destruct Hok as [[st ls] Hs].
    destruct (reduce (w_heap w) st a) as [st' h1] eqn:Hred.
    destruct (Henv _ _ _ Hs) as [fs Hfs].
    pose proof (reduce_incl (w_heap w) st a Hwf) as Hi. rewrite Hred in Hi.
    eexists. eapply cstep_dispatch; [done|done|].
    rewrite read_array_update_ne by (by eapply read_env_array_ne).
    by eapply read_array_incl.
  - destruct Hok as [[[st ls] Hs] _]. destruct (Henv _ _ _ Hs) as [fs Hfs].
    eexists. by eapply cstep_subscribe.
  - destruct Hok as [[st ls] Hs]. destruct (Henv _ _ _ Hs) as [fs Hfs].
    destruct (alloc (OArray (js_remove f fs)) (w_heap w)) eqn:Ha.
    eexists. by eapply cstep_unsubscribe.
  - destruct Hok as [[st ls] Hs]. eexists. by eapply cstep_ext.
  - destruct Hok as [fs Hfs]. destruct (decide (i < len)).
    + destruct (fs !! i) as [f|] eqn:Hf.
      * destruct (Hfids arr fs f Hfs) as [body Hb]; [by eapply list_elem_of_lookup_2|].
        eexists. by eapply cstep_foreach_call.
      * eexists. by eapply cstep_foreach_hole.
    + eexists. by eapply cstep_foreach_done.
Qed.

(** (C4) Safety: from a well-formed configuration the machine never
    gets stuck: every reachable configuration has returned (empty
    stack) or can make a transition. *)
Theorem safety c c' :
  wf_config c → rtc cstep c c' → c'.2 = [] ∨ ∃ c'', cstep c' c''.
Proof.
  intros Hc Hs. apply rtc_preserves in Hs; [|done].
  destruct c' as [w [|x k]]; [by left|]. right. by apply cstep_progress.
Qed.

(** (C9) [createStore(reducer, st)] in a well-formed world: the new
    environment's [state] is [st], its [listeners] an empty array, the
    world stays well formed and no existing object is changed. *)
Theorem createStore_wf w st s h' :
  wf_world w → createStore (w_heap w) st = (s, h') →
  wf_world (with_heap h' w) ∧ getState h' s = Some st ∧ listeners_of h' s = Some [] ∧
  heap_incl (w_heap w) h'.
Proof.
  intros [Hwf Henv Hfids Hcode] Hcr. unfold createStore in Hcr.
  destruct (alloc (OArray []) (w_heap w)) as [ls h1] eqn:Ha1.
  pose proof (alloc_incl (w_heap w) (OArray []) Hwf) as Hi1.
  pose proof (alloc_wf (w_heap w) (OArray []) Hwf) as Hwf1.
  pose proof (read_env_alloc (w_heap w) (OArray [])) as Henv1.
  pose proof (read_array_alloc (w_heap w) (OArray [])) as Harr1.
  rewrite Ha1 in Hi1, Hwf1, Henv1, Harr1. simpl in Hi1, Hwf1, Henv1, Harr1.
  assert (ls = next (w_heap w)) as -> by (rewrite <- (alloc_fst (w_heap w) (OArray [])), Ha1; done).
  pose proof (alloc_incl h1 (OEnv st (next (w_heap w))) Hwf1) as Hi2.
  pose proof (alloc_wf h1 (OEnv st (next (w_heap w))) Hwf1) as Hwf2.
  pose proof (read_env_alloc h1 (OEnv st (next (w_heap w)))) as Henv2.
  pose proof (read_array_alloc h1 (OEnv st (next (w_heap w)))) as Harr2.
  rewrite Hcr in Hi2, Hwf2, Henv2, Harr2. simpl in Hi2, Hwf2, Henv2, Harr2.
  assert (s = next h1) as -> by (rewrite <- (alloc_fst h1 (OEnv st (next (w_heap w)))), Hcr; done).
  assert (Hne : next (w_heap w) ≠ next h1).
  { intros Heq. pose proof (alloc_lookup_new (w_heap w) (OArray [])) as Hl.
    rewrite Ha1 in Hl. simpl in Hl. rewrite Heq, alloc_fresh in Hl; done. }
  assert (Hi : heap_incl (w_heap w) h') by (by eapply heap_incl_trans).
  assert (Hls : read_array h' (next (w_heap w)) = Some []).
  { rewrite Harr2, decide_False, Harr1, decide_True; done. }
  split; [|split; [|split; [|done]]].
  - split; [done| | |].
    + intros s' st' ls' H. simpl in H. rewrite Henv2 in H. case_decide; simplify_eq/=; [by eexists|].
      rewrite Henv1 in H. case_decide; [done|].
      destruct (Henv _ _ _ H) as [b Hb]. eexists. by eapply read_array_incl.
    + intros l b f H Hf. simpl in H. rewrite Harr2 in H. case_decide; [done|].
      rewrite Harr1 in H. case_decide; simplify_eq/=.
      * by apply not_elem_of_nil in Hf.
      * by eapply Hfids.
    + eapply code_ok_evolve; [by apply heap_incl_evolves|done|done].
  - unfold getState. rewrite Henv2, decide_True; done.
  - apply (listeners_of_read h' (next h1) st (next (w_heap w))); [|done].
    rewrite Henv2, decide_True; done.
Qed.

Lemma cmd_okb_sound w c : cmd_okb w c = true → cmd_ok w c.
Proof.
  destruct c; simpl; rewrite ?andb_true_iff, ?bool_decide_eq_true; done.
Qed.

Lemma wf_checkb_sound w : wf_checkb w = true → wf_world w.
Proof.
  unfold wf_checkb. rewrite !andb_true_iff, !bool_decide_eq_true.
  intros [[[Hwf Henv] Hfids] Hcode]. split.
  - by apply heap_wf_dec.
  - intros s st ls Hs. apply read_env_lookup in Hs.
    specialize (Henv s _ Hs). simpl in Henv. by apply bool_decide_eq_true in Henv.
  - intros l a f Hl Hf. unfold read_array in Hl.
    destruct (objs (w_heap w) !! l) as [o|] eqn:Ho; [|done].
    specialize (Hfids l o Ho). destruct o; simplify_eq/=.
    rewrite forallb_forall in Hfids. apply list_elem_of_In in Hf.
    specialize (Hfids f Hf). by apply bool_decide_eq_true in Hfids.
  - intros f body Hf. specialize (Hcode f body Hf). simpl in Hcode.
    rewrite forallb_forall in Hcode. apply Forall_forall. intros c Hc.
    apply cmd_okb_sound, Hcode. by apply list_elem_of_In.
Qed.

Lemma listeners_of_inv h s fs :
  listeners_of h s = Some fs → ∃ st ls, read_env h s = Some (st, ls) ∧ read_array h ls = Some fs.
Proof.
  unfold listeners_of. destruct (read_env h s) as [[st ls]|]; simpl; [|done]. eauto.
Qed.

(** The unsubscribe closure of [f] replaces the array by the copy
    without any occurrence of [f]. *)
Theorem unsubscribe_filters w s f fs :
  wf_config (w, []) → listeners_of (w_heap w) s = Some fs →
  ∃ w', unsubscribe ext w s f = Done w' ∧ wf_config (w', []) ∧
        listeners_of (w_heap w') s = Some (js_remove f fs).
Proof.
  intros Hc Hl. destruct (listeners_of_inv _ _ _ Hl) as (st & ls & Hs & Hfs).
  pose proof Hc as [[Hwf _ _ _] _].
  destruct (alloc (OArray (js_remove f fs)) (w_heap w)) as [ls' h1] eqn:Ha.
  pose proof (cstep_unsubscribe ext w s f [] st ls fs ls' h1 Hs Hfs Ha) as Hstep.
  eexists. split; [unfold unsubscribe; rewrite run_S; apply step_iff_cstep in Hstep; by rewrite Hstep|].
  split.
  - refine (cstep_wf _ _ _ Hstep). split; [apply Hc|]. repeat constructor. by eexists.
  - pose proof (read_array_alloc (w_heap w) (OArray (js_remove f fs)) ls') as Harr.
    assert (ls' = next (w_heap w)) as ->.
    { rewrite <- (alloc_fst (w_heap w) (OArray (js_remove f fs))), Ha. done. }
    rewrite Ha, decide_True in Harr by done.
    cbn [w_heap with_heap]. apply (listeners_of_read _ _ st (next (w_heap w))); [apply read_env_update_eq|].
    rewrite read_array_update_ne; [done|].
    intros Heq. apply read_env_lookup in Hs. rewrite Heq, alloc_fresh in Hs; done.
Qed.

(** [subscribe(f)] in one step. *)
Lemma subscribe_pushes w s f fs :
  wf_config (w, []) → listeners_of (w_heap w) s = Some fs → is_Some (w_code w !! f) →
  ∃ w', subscribe ext w s f = Done w' ∧ wf_config (w', []) ∧
        listeners_of (w_heap w') s = Some (fs ++ [f]).
Proof.
  intros Hc Hl Hf. destruct (listeners_of_inv _ _ _ Hl) as (st & ls & Hs & Hfs).
  pose proof (cstep_subscribe ext w s f [] st ls fs Hs Hfs) as Hstep.
  eexists. split; [unfold subscribe; rewrite run_S; apply step_iff_cstep in Hstep; by rewrite Hstep|].
  split.
  - refine (cstep_wf _ _ _ Hstep). split; [apply Hc|]. repeat constructor; [by eexists|done].
  - cbn [w_heap with_heap]. apply (listeners_of_read _ _ st ls); [|apply read_array_update_eq].
    rewrite read_env_update_ne; [done|].
    intros Heq. subst. eapply read_env_array_ne; [exact Hs|exact Hfs|reflexivity].
Qed.

(** ** Properties *)

(** (C7) Every transition of the store machine preserves [wf_config]. *)
Theorem cstep_preserves c c' : wf_config c → cstep c c' → wf_config c'.
Proof. apply cstep_wf. Qed.

(** (C8) A well-formed configuration with a pending command can make
    a transition. *)
Theorem progress w c k : wf_config (w, c :: k) → ∃ c', cstep (w, c :: k) c'.
Proof. apply cstep_progress. Qed.

(** (C10) [subscribe(f)] returns, keeps the world well formed and pushes
    [f] at the end of the current [listeners] array. *)
Theorem subscribe_listeners w s f fs :
  wf_config (w, []) → listeners_of (w_heap w) s = Some fs → is_Some (w_code w !! f) →
  ∃ w', subscribe ext w s f = Done w' ∧ wf_config (w', []) ∧
        listeners_of (w_heap w') s = Some (fs ++ [f]).
Proof. apply subscribe_pushes. Qed.

(** (C12) Calling the unsubscribe closure of [f] a second time returns
    and leaves [listeners] as the first call left them. *)
Theorem unsubscribe_idemp w s f fs :
  wf_config (w, []) → listeners_of (w_heap w) s = Some fs →
  ∃ w1 w2, unsubscribe ext w s f = Done w1 ∧ unsubscribe ext w1 s f = Done w2 ∧
           listeners_of (w_heap w2) s = listeners_of (w_heap w1) s.
Proof.
  intros Hc Hl.
  destruct (unsubscribe_filters w s f fs Hc Hl) as (w1 & Hu1 & Hc1 & Hl1).
  destruct (unsubscribe_filters w1 s f _ Hc1 Hl1) as (w2 & Hu2 & _ & Hl2).
  exists w1, w2. split_and!; [done|done|]. by rewrite Hl2, Hl1, js_remove_idemp.
Qed.

(** (C11) The unsubscribe closure of [f] leaves [listeners] holding the
    former listeners other than [f], in their order: the list filter on
    [g ≠ f]. *)
Theorem unsubscribe_listeners w s f fs :
  wf_config (w, []) → listeners_of (w_heap w) s = Some fs →
  ∃ w', unsubscribe ext w s f = Done w' ∧ wf_config (w', []) ∧
        listeners_of (w_heap w') s = Some (filter (λ g, g ≠ f) fs).
Proof.
  intros Hc Hl. destruct (unsubscribe_filters w s f fs Hc Hl) as (w' & Hu & Hc' & Hl').
  exists w'. by rewrite <- js_remove_spec.
Qed.

(** (C5) A function [f] already subscribed and subscribed once more: the
    unsubscribe closure of the new subscription also removes the earlier
    registration, so [listeners] does not return to what it was before
    that subscription (the comment of line 36 and the specification say
    it removes that listener). *)
Theorem double_subscription_cancelled w s f fs :
  wf_config (w, []) → listeners_of (w_heap w) s = Some fs → is_Some (w_code w !! f) → f ∈ fs →
  ∃ w1 w2, subscribe ext w s f = Done w1 ∧ unsubscribe ext w1 s f = Done w2 ∧
           listeners_of (w_heap w2) s = Some (filter (λ g, g ≠ f) fs) ∧
           filter (λ g, g ≠ f) fs ≠ fs.
Proof.
  intros Hc Hl Hf Hin.
  destruct (subscribe_pushes w s f fs Hc Hl Hf) as (w1 & Hs1 & Hc1 & Hl1).
  destruct (unsubscribe_filters w1 s f _ Hc1 Hl1) as (w2 & Hu2 & _ & Hl2).
  exists w1, w2. split_and!; [done|done| |].
  - by rewrite Hl2, js_remove_app, js_remove_cons_eq, app_nil_r, js_remove_spec.
  - intros Heq. rewrite <- Heq in Hin. apply list_elem_of_filter in Hin. naive_solver.
Qed.

(** (C21) Round trip: [subscribe(f)] followed by a call of the
    unsubscribe closure it returned gives back the listeners of before,
    when [f] was not subscribed already (if it was, the unsubscribe also
    drops the earlier registrations). *)
Theorem subscribe_unsubscribe_roundtrip w s f fs :
  wf_config (w, []) → listeners_of (w_heap w) s = Some fs → is_Some (w_code w !! f) → f ∉ fs →
  ∃ w1 w2, subscribe ext w s f = Done w1 ∧ unsubscribe ext w1 s f = Done w2 ∧
           listeners_of (w_heap w2) s = Some fs.
Proof.
  intros Hc Hl Hf Hnot.
  destruct (subscribe_pushes w s f fs Hc Hl Hf) as (w1 & Hs1 & Hc1 & Hl1).
  destruct (unsubscribe_filters w1 s f _ Hc1 Hl1) as (w2 & Hu2 & _ & Hl2).
  exists w1, w2. split_and!; [done|done|].
  by rewrite Hl2, js_remove_app, js_remove_cons_eq, (js_remove_notin f fs Hnot), app_nil_r.
Qed.
End store_safety.
