(* ===== verification/StoreTyping.v ===== *)
(** * The store's state is always a state object

    [Counter] reads [state.count] on what [getState()] returns.  The
    invariant [state_typed] says that the [state] variable of every store
    points to a state object [{count}].  A fresh store satisfies it when
    created with a state object ([createStore_typed]), and every
    transition of the store machine keeps it ([cstep_typed]), given the
    reducer law [reduce_state] (a reducer given a state object returns
    one).  [App.v] discharges that law for the program's reducer and
    states the result for the program's machine ([app_state_typed]). *)

From stdpp Require Import base gmap list relations strings.
From S2P Require Import Prelude JsNumber Heap Store StoreSafety.

Import Store.

Section typing.
Context {E X : Type} (ext : E → loc → X → X) `{R : StoreReducer} `{!StoreReducerLaws R}.

Local Abbreviation cstep := (cstep ext).

(** ** Definitions *)

(** Every store's [state] is a state object. *)
Definition state_typed (h : heap) : Prop :=
  ∀ s st ls, read_env h s = Some (st, ls) → ∃ v, objs h !! st = Some (OState v).

(** An executable check of [state_typed] on a concrete heap. *)
Definition state_typedb (h : heap) : bool :=
  bool_decide (map_Forall (λ _ o, match o with
                                  | OEnv st _ => match objs h !! st with
                                                 | Some (OState _) => true
                                                 | _ => false
                                                 end
                                  | _ => true
                                  end = true) (objs h)).

(** ** Lemmas *)

Lemma state_typedb_sound h : state_typedb h = true → state_typed h.
Proof.
  intros Hb s st ls Hs. apply bool_decide_eq_true in Hb. apply read_env_lookup in Hs.
  specialize (Hb s _ Hs). simpl in Hb. destruct (objs h !! st) as [[]|]; try done. eauto.
Qed.

(** Writing an object over one that is not a state object keeps the
    invariant, provided a written environment points to a state object. *)
Lemma typed_update h l o :
  state_typed h → (∀ v, objs h !! l ≠ Some (OState v)) →
  (∀ st ls, env_of o = Some (st, ls) → ∃ v, objs h !! st = Some (OState v)) →
  state_typed (update l o h).
Proof.
  intros Ht Hl Ho s st ls Hs. rewrite read_env_update in Hs.
  assert (∃ v, objs h !! st = Some (OState v)) as [v Hv].
  { case_decide; [by eapply Ho|by eapply Ht]. }
  exists v. simpl. rewrite lookup_insert_ne; [done|]. intros ->. by apply (Hl v).
Qed.

(** Extending the heap with objects that are not environments keeps it. *)
Lemma typed_extend h h' :
  state_typed h → heap_incl h h' → (∀ s p, read_env h' s = Some p → read_env h s = Some p) →
  state_typed h'.
Proof.
  intros Ht [Hsub _] Hback s st ls Hs. destruct (Ht s st ls (Hback _ _ Hs)) as [v Hv].
  exists v. by eapply lookup_weaken.
Qed.

Lemma env_not_state h s st ls v : read_env h s = Some (st, ls) → objs h !! s ≠ Some (OState v).
Proof. intros Hs Hv. unfold read_env in Hs. rewrite Hv in Hs. discriminate. Qed.

Lemma array_not_state h l a v : read_array h l = Some a → objs h !! l ≠ Some (OState v).
Proof. intros Hl Hv. unfold read_array in Hl. rewrite Hv in Hl. discriminate. Qed.

Lemma alloc_array_back h a s p :
  read_env (snd (alloc (OArray a) h)) s = Some p → read_env h s = Some p.
Proof. rewrite read_env_alloc. by case_decide. Qed.

(** ** Properties *)

(** Type preservation: in a well-formed configuration whose
    stores all hold a state object, every transition of the store
    machine leads to a configuration whose stores all hold a state
    object. *)
Theorem cstep_typed c c' :
  wf_config c → state_typed (w_heap c.1) → cstep c c' → state_typed (w_heap c'.1).
Proof.
  intros Hc Ht Hs. pose proof Hc as [[Hwf _ _ _] _].
  inversion Hs as [w s a k st ls st' h1 fs Hst Hred Hfs| | | |w s f k st ls fs Hst Hfs
                  |w s f k st ls fs ls' h1 Hst Hfs Ha|]; subst; simpl; try done.
  - pose proof (reduce_incl (w_heap w) st a Hwf) as Hi. rewrite Hred in Hi.
    assert (Ht1 : state_typed h1).
    { apply (typed_extend (w_heap w)); [done|done|]. intros s' p Hs'.
      apply (reduce_read_env_back _ st a); [done|]. by rewrite Hred. }
    apply typed_update; [done| |].
    + intros v. apply (env_not_state _ _ st ls). by eapply read_env_incl.
    + intros st1 ls1 [= <- <-]. destruct (Ht s st ls Hst) as [v Hv].
      pose proof (reduce_state (w_heap w) st a v Hwf Hv) as Hv'. by rewrite Hred in Hv'.
  - apply typed_update; [done| |done]. intros v. by apply (array_not_state _ _ fs).
  - assert (Ht1 : state_typed h1).
    { apply (typed_extend (w_heap w)).
      - done.
      - pose proof (alloc_incl (w_heap w) (OArray (js_remove f fs)) Hwf) as Hi. by rewrite Ha in Hi.
      - intros s' p Hs'. apply (alloc_array_back _ (js_remove f fs)). by rewrite Ha. }
    pose proof (alloc_incl (w_heap w) (OArray (js_remove f fs)) Hwf) as Hi. rewrite Ha in Hi.
    apply typed_update; [done| |].
    + intros v. apply (env_not_state _ _ st ls). by eapply read_env_incl.
    + intros st1 ls1 [= <- <-]. destruct (Ht s st ls Hst) as [v Hv].
      exists v. destruct Hi as [Hsub _]. by eapply lookup_weaken.
Qed.

(** Along any run from a well-formed, typed configuration. *)
Lemma rtc_typed c c' :
  wf_config c → state_typed (w_heap c.1) → rtc cstep c c' → state_typed (w_heap c'.1).
Proof.
  intros Hc Ht Hs. induction Hs as [|c1 c2 c3 H12 H23 IH]; [done|].
  apply IH; [exact (cstep_wf ext _ _ Hc H12)|exact (cstep_typed _ _ Hc Ht H12)].
Qed.

(** [createStore(reducer, st)] with a state object [st]. *)
Lemma createStore_typed h st v s h' :
  heap_wf h → state_typed h → objs h !! st = Some (OState v) → createStore h st = (s, h') →
  state_typed h'.
Proof.
  intros Hwf Ht Hv Hcr. unfold createStore in Hcr.
  destruct (alloc (OArray []) h) as [ls h1] eqn:Ha.
  pose proof (alloc_incl h (OArray []) Hwf) as Hi1. pose proof (alloc_wf h (OArray []) Hwf) as Hwf1.
  rewrite Ha in Hi1, Hwf1. simpl in Hi1, Hwf1.
  assert (Ht1 : state_typed h1).
  { apply (typed_extend h); [done|done|]. intros s' p Hs'. apply (alloc_array_back _ []). by rewrite Ha. }
  pose proof (alloc_incl h1 (OEnv st ls) Hwf1) as Hi2. rewrite Hcr in Hi2. simpl in Hi2.
  intros s2 st2 ls2 Hs2. pose proof (read_env_alloc h1 (OEnv st ls) s2) as He. rewrite Hcr in He. simpl in He.
  rewrite Hs2 in He. destruct Hi2 as [Hsub2 _]. destruct Hi1 as [Hsub1 _].
  case_decide; simpl in He.
  - injection He as <- <-. exists v. by apply (lookup_weaken _ _ _ _ (lookup_weaken _ _ _ _ Hv Hsub1)).
  - destruct (Ht1 s2 st2 ls2 (eq_sym He)) as [v2 Hv2]. exists v2. by eapply lookup_weaken.
Qed.
End typing.
