(* ===== verification/StoreNotify.v ===== *)
(** * Which listeners [dispatch] notifies

    [dispatch] (lines 28-31) notifies, in order and exactly once each,
    the listeners held by the array [listeners] points to when
    [forEach] starts: a listener that another listener unsubscribes
    during the pass is still called (the unsubscribe builds a new array
    with [filter], the pass goes on over the old one), and a listener
    subscribed during the pass is not ([forEach] read the length once;
    [push] appends past it).  This is [dispatch_snapshot], for listeners
    that do not dispatch themselves ([flat_code]).  A listener that
    dispatches on its own store ([reentrant]) makes [dispatch] recurse
    without end: [dispatch] runs out of any fuel
    ([dispatch_reentrant_diverges]), a stack overflow in JavaScript.

    What [subscribe] and the unsubscribe closure do to the array is in
    [StoreSafety], beside the invariant they keep. *)

From stdpp Require Import base gmap list relations strings.
From S2P Require Import Prelude JsNumber Heap Store StoreSafety.

Import Store.

Section notify.
Context {E X : Type} (ext : E → loc → X → X) `{R : StoreReducer} `{!StoreReducerLaws R}.

Local Abbreviation cstep := (cstep ext).
Local Abbreviation wf_config := (wf_config (X:=X)).

(** ** Definitions *)

(** Listener bodies that call the store API but never [dispatch]. *)
Definition flat_cmd (c : cmd E) : Prop :=
  match c with
  | CSubscribe _ _ | CUnsubscribe _ _ | CExt _ _ => True
  | CDispatch _ _ | CForEach _ _ _ => False
  end.

Definition flat_code (w : world E X) : Prop :=
  ∀ f body, w_code w !! f = Some body → Forall flat_cmd body.

Definition flat_cmdb (c : cmd E) : bool :=
  match c with
  | CSubscribe _ _ | CUnsubscribe _ _ | CExt _ _ => true
  | CDispatch _ _ | CForEach _ _ _ => false
  end.

(** An executable check of [flat_code] on a concrete world. *)
Definition flat_codeb (w : world E X) : bool :=
  bool_decide (map_Forall (λ _ body, forallb flat_cmdb body = true) (w_code w)).

(** Every store keeps its [state]: only [listeners] may change. *)
Definition states_kept (h h' : heap) : Prop :=
  ∀ s st ls, read_env h s = Some (st, ls) → ∃ ls', read_env h' s = Some (st, ls').

(** What a run of listener code leaves unchanged or lets grow. *)
Definition flat_effect (w w' : world E X) : Prop :=
  w_code w' = w_code w ∧ arrays_grow (w_heap w) (w_heap w') ∧
  states_kept (w_heap w) (w_heap w').

(** A store [s] whose [listeners] array [ls] holds one function [g],
    whose body is [store.dispatch(a)] on the same store. *)
Definition reentrant (w : world E X) (s : loc) (a : Action) (ls : loc) (g : fid) : Prop :=
  (∃ st, read_env (w_heap w) s = Some (st, ls)) ∧ read_array (w_heap w) ls = Some [g] ∧
  w_code w !! g = Some [CDispatch s a] ∧ heap_wf (w_heap w).

(** ** Lemmas *)

Lemma flat_codeb_sound w : flat_codeb w = true → flat_code w.
Proof.
  unfold flat_codeb. rewrite bool_decide_eq_true. intros H f body Hf.
  specialize (H f body Hf). simpl in H. rewrite forallb_forall in H.
  apply Forall_forall. intros c Hc. apply list_elem_of_In in Hc.
  specialize (H c Hc). by destruct c.
Qed.

Lemma states_kept_refl h : states_kept h h.
Proof. intros s st ls H. eauto. Qed.

Lemma states_kept_trans h1 h2 h3 : states_kept h1 h2 → states_kept h2 h3 → states_kept h1 h3.
Proof.
  intros H12 H23 s st ls H. destruct (H12 _ _ _ H) as [ls2 H2]. by eapply H23.
Qed.

Lemma flat_effect_refl w : flat_effect w w.
Proof. split_and_done; [apply arrays_grow_refl|apply states_kept_refl]. Qed.

Lemma flat_effect_trans w1 w2 w3 : flat_effect w1 w2 → flat_effect w2 w3 → flat_effect w1 w3.
Proof.
  intros (?&?&?) (?&?&?). split; [congruence|].
  split; [by eapply arrays_grow_trans|by eapply states_kept_trans].
Qed.

Lemma flat_code_effect w w' : flat_effect w w' → flat_code w → flat_code w'.
Proof. intros [Hc _] Hf f b. rewrite Hc. apply Hf. Qed.

(** One listener statement that is not a dispatch: a single step that
    pops it, with a [flat_effect], and no listener call. *)
Lemma flat_cmd_step w c k :
  wf_config (w, c :: k) → flat_cmd c →
  ∃ w', cstep (w, c :: k) (w', k) ∧ flat_effect w w' ∧ w_calls w' = w_calls w.
Proof.
  intros Hc Hflat. pose proof Hc as [[Hwf Henv Hfids Hcode] _].
  destruct (cstep_progress ext w c k Hc) as [c' Hs].
  inversion Hs; subst; simpl in Hflat; try done.
  - eexists. split; [exact Hs|]. split; [|done]. split; [done|]. split.
    + cbn [w_heap with_heap]. by eapply update_push_grow.
    + intros s' st' ls' H. cbn [w_heap with_heap]. rewrite read_env_update. case_decide; [|eauto].
      subst. exfalso. eapply read_env_array_ne; [done|done|reflexivity].
  - match goal with Hx : alloc _ _ = (_, _) |- _ => rename Hx into Ha end.
    pose proof (alloc_incl (w_heap w) (OArray (js_remove f fs)) Hwf) as Hi.
    pose proof (read_env_alloc (w_heap w) (OArray (js_remove f fs))) as Henv1.
    rewrite Ha in Hi, Henv1. simpl in Henv1.
    eexists. split; [exact Hs|]. split; [|done]. split; [done|]. split.
    + cbn [w_heap with_heap]. eapply arrays_grow_trans; [by apply heap_incl_arrays_grow|].
      apply update_env_grow. intros b Hb.
      eapply (read_env_array_ne h1 s s); [|done|done].
      by eapply read_env_incl.
    + intros s' st' ls'' H. cbn [w_heap with_heap]. rewrite read_env_update. case_decide; subst.
      * match goal with Hx : read_env _ s' = Some (st, ls) |- _ => rewrite H in Hx end.
        simplify_eq. eauto.
      * rewrite Henv1. rewrite decide_False; [eauto|].
        intros Heq. apply read_env_lookup in H. rewrite <- Heq, alloc_fresh in H; done.
  - eexists. split; [exact Hs|]. split; [|done]. split; [done|]. split; [apply arrays_grow_refl|apply states_kept_refl].
Qed.

(** A listener body without dispatch runs to its end. *)
Lemma flat_run w body k :
  wf_config (w, body ++ k) → Forall flat_cmd body →
  ∃ w', rtc cstep (w, body ++ k) (w', k) ∧ flat_effect w w' ∧ w_calls w' = w_calls w.
Proof.
  revert w. induction body as [|c body IH]; intros w Hc Hflat.
  - exists w. split; [constructor|]. split; [apply flat_effect_refl|done].
  - apply Forall_cons in Hflat as [Hc1 Hflat].
    destruct (flat_cmd_step w c (body ++ k) Hc Hc1) as (w1 & Hs1 & He1 & Hcalls1).
    destruct (IH w1) as (w2 & Hs2 & He2 & Hcalls2); [by eapply cstep_wf|done|].
    exists w2. split; [by eapply rtc_l|]. split; [by eapply flat_effect_trans|congruence].
Qed.

(** The [forEach] of [dispatch] over an array that holds [fs] when the
    pass starts: the calls are the elements [i .. len-1] of [fs]. *)
Lemma foreach_run m w arr i len k fs :
  len - i = m → flat_code w → wf_config (w, CForEach arr i len :: k) →
  read_array (w_heap w) arr = Some fs → len ≤ length fs →
  ∃ w', rtc cstep (w, CForEach arr i len :: k) (w', k) ∧ flat_effect w w' ∧
        w_calls w' = w_calls w ++ drop i (take len fs).
Proof.
  revert w i fs. induction m as [|m IH]; intros w i fs Hm Hflat Hc Hfs Hlen.
  - exists w. split; [apply rtc_once; eapply cstep_foreach_done; [done|lia]|].
    split; [apply flat_effect_refl|]. rewrite drop_ge; [by rewrite app_nil_r|].
    rewrite length_take. lia.
  - assert (Hi : i < length fs) by lia.
    destruct (lookup_lt_is_Some_2 fs i Hi) as [f Hf].
    pose proof Hc as [[Hwf Henv Hfids Hcode] _].
    destruct (Hfids arr fs f Hfs) as [body Hb]; [by eapply list_elem_of_lookup_2|].
    assert (Hs1 : cstep (w, CForEach arr i len :: k) (log_call f w, body ++ CForEach arr (S i) len :: k))
      by (eapply cstep_foreach_call; eauto; lia).
    pose proof (cstep_wf ext _ _ Hc Hs1) as Hc1.
    destruct (flat_run (log_call f w) body (CForEach arr (S i) len :: k)) as (w1 & Hs2 & He1 & Hcalls1);
      [done|by eapply Hflat|].
    destruct He1 as (Hcode1 & Hgrow1 & Hkept1).
    destruct (Hgrow1 arr fs Hfs) as [fs' Hfs'].
    destruct (IH w1 (S i) (fs ++ fs')) as (w2 & Hs3 & He2 & Hcalls2);
      [lia|by eapply (flat_code_effect (log_call f w)); [split_and_done|]| |done|rewrite length_app; lia|].
    + exact (rtc_preserves ext _ _ Hc1 Hs2).
    + exists w2. split; [eapply rtc_l; [exact Hs1|]; by eapply rtc_trans|].
      split; [eapply flat_effect_trans; [|exact He2]; split_and_done|].
      rewrite Hcalls2, Hcalls1, take_app_le by lia. simpl.
      rewrite (drop_S _ f i); [by rewrite <- app_assoc|].
      rewrite lookup_take; case_decide; [done|lia].
Qed.

(** [dispatch]: the reducer's new state is stored, then every listener
    of the array held at that moment is called once, in order. *)
Theorem dispatch_snapshot w s a st ls fs :
  wf_config (w, []) → flat_code w →
  read_env (w_heap w) s = Some (st, ls) → read_array (w_heap w) ls = Some fs →
  ∃ w', rtc cstep (w, [CDispatch s a]) (w', []) ∧
        w_calls w' = w_calls w ++ fs ∧
        getState (w_heap w') s = Some (fst (reduce (w_heap w) st a)).
Proof.
  intros Hc Hflat Hs Hfs. pose proof Hc as [[Hwf Henv Hfids Hcode] _].
  assert (Hc0 : wf_config (w, [CDispatch s a])) by (split; [apply Hc|]; repeat constructor; by eexists).
  destruct (reduce (w_heap w) st a) as [st' h1] eqn:Hred.
  pose proof (reduce_incl (w_heap w) st a Hwf) as Hi. rewrite Hred in Hi.
  assert (Hfs1 : read_array (update s (OEnv st' ls) h1) ls = Some fs).
  { rewrite read_array_update_ne by (by eapply read_env_array_ne). by eapply read_array_incl. }
  pose proof (cstep_dispatch ext w s a [] st ls st' h1 fs Hs Hred Hfs1) as Hs1.
  destruct (foreach_run (length fs - 0) (with_heap (update s (OEnv st' ls) h1) w) ls 0 (length fs) [] fs)
    as (w' & Hs2 & (_ & _ & Hkept) & Hcalls); [done|done|by eapply cstep_wf|done|done|].
  exists w'. split; [by eapply rtc_l|]. split.
  - rewrite Hcalls, take_ge by lia. done.
  - simpl. destruct (Hkept s st' ls) as [ls' Hs']; [apply read_env_update_eq|].
    unfold getState. by rewrite Hs'.
Qed.

(** The two transitions of a re-entrant store: [dispatch] starts the
    [forEach] pass over the one-element array, and the pass calls [g],
    which pushes a new [dispatch] above the unfinished pass. *)
Lemma reentrant_dispatch_step w s a ls g k :
  reentrant w s a ls g →
  ∃ w', cstep (w, CDispatch s a :: k) (w', CForEach ls 0 1 :: k) ∧ reentrant w' s a ls g.
Proof.
  intros [[st Hs] [Hls [Hg Hwf]]].
  destruct (reduce (w_heap w) st a) as [st' h1] eqn:Hred.
  pose proof (reduce_incl (w_heap w) st a Hwf) as Hi. rewrite Hred in Hi.
  pose proof (reduce_wf (w_heap w) st a Hwf) as Hwf1. rewrite Hred in Hwf1.
  assert (Hne : s ≠ ls) by (eapply read_env_array_ne; [exact Hs|exact Hls]).
  assert (Hls2 : read_array (update s (OEnv st' ls) h1) ls = Some [g]).
  { rewrite read_array_update_ne by done. by eapply read_array_incl. }
  eexists. split; [exact (cstep_dispatch ext w s a k st ls st' h1 [g] Hs Hred Hls2)|].
  cbn [w_heap w_code with_heap]. split_and!; [eexists; apply read_env_update_eq|done|done|].
  apply update_wf; [|done]. apply read_env_incl with (h' := h1) in Hs; [|done].
  apply read_env_lookup in Hs. by eexists.
Qed.

Lemma reentrant_call_step w s a ls g k :
  reentrant w s a ls g →
  cstep (w, CForEach ls 0 1 :: k) (log_call g w, CDispatch s a :: CForEach ls 1 1 :: k) ∧
  reentrant (log_call g w) s a ls g.
Proof.
  intros Hr. pose proof Hr as (_ & Hls & Hg & _). split; [|exact Hr].
  exact (cstep_foreach_call ext w ls 0 1 k [g] g [CDispatch s a] Hls ltac:(lia) eq_refl Hg).
Qed.

(** Whatever the fuel, the machine is still inside the recursion: it
    alternates between a pending [dispatch] and the start of a pass, the
    stack growing by one unfinished pass each round. *)
Lemma reentrant_run n w s a ls g m :
  reentrant w s a ls g →
  (∃ c', run ext n (w, CDispatch s a :: repeat (CForEach ls 1 1) m) = OutOfFuel c') ∧
  (∃ c', run ext n (w, CForEach ls 0 1 :: repeat (CForEach ls 1 1) m) = OutOfFuel c').
Proof.
  revert w m. induction n as [|n IH]; intros w m Hr; [split; by eexists|].
  destruct (reentrant_dispatch_step w s a ls g (repeat (CForEach ls 1 1) m) Hr) as (w1 & Hs1 & Hr1).
  destruct (reentrant_call_step w s a ls g (repeat (CForEach ls 1 1) m) Hr) as [Hs2 Hr2].
  apply step_iff_cstep in Hs1, Hs2. split; rewrite run_S.
  - rewrite Hs1. apply (IH w1 m Hr1).
  - rewrite Hs2. apply (IH (log_call g w) (S m) Hr2).
Qed.

(** ** Properties *)

(** (C2) [dispatch(action)] on a store whose listeners do not dispatch:
    the machine returns, every listener of the array [listeners] held
    when the pass began is called exactly once, in that order (whatever
    the listeners subscribe or unsubscribe meanwhile), and [getState()]
    is the reducer's result. *)
Theorem dispatch_notifies w s a st ls fs :
  wf_config (w, []) → flat_code w →
  read_env (w_heap w) s = Some (st, ls) → read_array (w_heap w) ls = Some fs →
  ∃ w', rtc cstep (w, [CDispatch s a]) (w', []) ∧
        w_calls w' = w_calls w ++ fs ∧
        getState (w_heap w') s = Some (fst (reduce (w_heap w) st a)).
Proof. apply dispatch_snapshot. Qed.


(** (C16) A listener that calls [store.dispatch] on its own store makes
    [dispatch] recurse without end: whatever the fuel, [dispatch] does
    not return, it runs out of fuel (in JavaScript: the call stack
    overflows). *)
Theorem dispatch_reentrant_diverges w s a ls g n :
  reentrant w s a ls g → ∃ c', dispatch ext n w s a = OutOfFuel c'.
Proof. intros Hr. apply (reentrant_run n w s a ls g 0 Hr). Qed.
End notify.
