(* ===== verification/UseStore.v ===== *)
(** * The [useStore] hook of [src/src/App.js] (lines 45-61)

    React itself is not part of the repository; only what the hook's code
    asks of it is modelled: a state cell per component instance
    ([useState], a [gmap] from instance to the value it holds, here a
    state object), and the effect with its dependency list [[store]] that
    React runs after a render when [store] changed (Object.is), running
    the previous cleanup first.

    - [useStore_render]: [useContext(StoreContext)] (a [None] context is
      the default [null], on which [store.getState()] throws);
      [useState(store.getState())] keeps the cell if it exists;
      returns [[state, store.dispatch]], the dispatch being that of
      [store].
    - [useStore_effect]: [store.subscribe(() => setState(store.getState()))]
      with a fresh closure [listener_body], remembering the unsubscribe
      for the cleanup ([cleanup]: [unsubscribe()], lines 55-57).

    The listener's [setState(store.getState())] is the external statement
    [hook_ext] of the store machine.

    Theorems: when [store] changes the effect moves the subscription
    from the old store to the new one ([useStore_effect_moves]), and
    unmounting unsubscribes and drops the cell ([unmount_unsubscribes]). *)

From stdpp Require Import base gmap list relations strings.
From S2P Require Import Prelude JsNumber Heap Store StoreSafety StoreNotify.

Import Store.

Module UseStore.

(** ** Definitions *)

(** React state cells, by component instance. *)
Abbreviation cells := (gmap nat loc).

(** [setState(v)] on the cell of instance [i]. *)
Definition hook_ext (i : nat) (v : loc) (c : cells) : cells := <[i := v]> c.

(** The UI: the store machine's world whose external state is the
    cells, the effect of each mounted instance (its [store] dependency
    and the listener it subscribed), and a supply of fresh closures. *)
Record ui := mkUi {
  ui_w : world nat cells;
  ui_effects : gmap nat (loc * fid);
  ui_next_fid : fid
}.

Definition with_world (w : world nat cells) (u : ui) : ui :=
  mkUi w (ui_effects u) (ui_next_fid u).

(** [() => { setState(store.getState()); }] of instance [i]. *)
Definition listener_body (store : loc) (i : nat) : list (cmd nat) := [CExt store i].

Section hook.
Context `{R : StoreReducer}.

(** A render of the component instance [i] calling [useStore()]:
    the cell (initialised on the first render only) and the store. *)
Definition useStore_render (ctx : option loc) (i : nat) (u : ui) : option (ui * (loc * loc)) :=
  store ← ctx;
  st0 ← getState (w_heap (ui_w u)) store;
  let c := w_ext (ui_w u) in
  match c !! i with
  | Some st => Some (u, (st, store))
  | None => Some (with_world (with_ext (<[i := st0]> c) (ui_w u)) u, (st0, store))
  end.

(** The effect body: a fresh listener closure, subscribed. *)
Definition subscribe_listener (store : loc) (i : nat) (u : ui) : option ui :=
  let g := ui_next_fid u in
  let w := ui_w u in
  let w1 := mkWorld (w_heap w) (<[g := listener_body store i]> (w_code w)) (w_ext w) (w_calls w) in
  match subscribe hook_ext w1 store g with
  | Done w2 => Some (mkUi w2 (<[i := (store, g)]> (ui_effects u)) (Pos.succ g))
  | _ => None
  end.

(** The effect's cleanup: [unsubscribe()]. *)
Definition cleanup (i : nat) (u : ui) : option ui :=
  match ui_effects u !! i with
  | Some (s0, g0) =>
      match unsubscribe hook_ext (ui_w u) s0 g0 with
      | Done w' => Some (mkUi w' (delete i (ui_effects u)) (ui_next_fid u))
      | _ => None
      end
  | None => Some u
  end.

(** After a render: the effect runs again only if [store] changed. *)
Definition useStore_effect (store : loc) (i : nat) (u : ui) : option ui :=
  match ui_effects u !! i with
  | Some (s0, _) =>
      if decide (s0 = store) then Some u
      else cleanup i u ≫= subscribe_listener store i
  | None => subscribe_listener store i u
  end.

(** Unmounting instance [i]: cleanup, and React drops its cell. *)
Definition unmount (i : nat) (u : ui) : option ui :=
  u' ← cleanup i u;
  Some (with_world (with_ext (delete i (w_ext (ui_w u'))) (ui_w u')) u').
End hook.

Section hook_lemmas.
Context `{R : StoreReducer}.

(** The two heap facts the effect relies on, for stores [s0 ≠ s] of a
    well-formed heap: the unsubscribe closure of [s0] leaves [s]'s
    environment and array alone. *)
Lemma unsubscribe_frame h s0 st0 ls0 a s st ls fs :
  heap_wf h → read_env h s0 = Some (st0, ls0) → s0 ≠ s →
  read_env h s = Some (st, ls) → read_array h ls = Some fs →
  let h1 := update s0 (OEnv st0 (next h)) (snd (alloc (OArray a) h)) in
  read_env h1 s = Some (st, ls) ∧ read_array h1 ls = Some fs ∧ s0 ≠ ls ∧ ls ≠ next h.
Proof.
  intros Hwf Hs0 Hne Hs Hls h1.
  pose proof (read_env_lt _ _ _ Hwf Hs). pose proof (read_array_lt _ _ _ Hwf Hls).
  assert (s0 ≠ ls) by (eapply read_env_array_ne; [exact Hs0|exact Hls]).
  split_and!; [| |done|lia].
  - unfold h1. rewrite read_env_update_ne by done. rewrite read_env_alloc, decide_False by lia. done.
  - unfold h1. rewrite read_array_update_ne by done. rewrite read_array_alloc, decide_False by lia. done.
Qed.

(** A render only touches React's cells, never the heap; it succeeds
    exactly when the context holds a store whose state can be read. *)
Lemma useStore_render_heap ctx i u u1 r :
  useStore_render ctx i u = Some (u1, r) → w_heap (ui_w u1) = w_heap (ui_w u).
Proof.
  unfold useStore_render. destruct ctx as [s|]; simpl; [|done].
  destruct (getState _ s); simpl; [|done].
  destruct (w_ext (ui_w u) !! i); intros; simplify_eq; done.
Qed.

Lemma useStore_render_live s i u st :
  getState (w_heap (ui_w u)) s = Some st → ∃ u1 r, useStore_render (Some s) i u = Some (u1, r).
Proof.
  intros Hst. unfold useStore_render. simpl. rewrite Hst. simpl.
  destruct (w_ext (ui_w u) !! i); eauto.
Qed.

(** ** Properties *)

(** (C17) When the provided [store] changes, the effect's cleanup runs
    and the effect runs again: the old store [s0] loses every occurrence
    of the old listener [g0] ([unsubscribe()]), and a fresh listener is
    pushed at the end of the new store's array and remembered for the
    next cleanup. *)
Theorem useStore_effect_moves u store i s0 g0 fs0 fs :
  heap_wf (w_heap (ui_w u)) → ui_effects u !! i = Some (s0, g0) → s0 ≠ store →
  listeners_of (w_heap (ui_w u)) s0 = Some fs0 → listeners_of (w_heap (ui_w u)) store = Some fs →
  ∃ u', useStore_effect store i u = Some u' ∧
        listeners_of (w_heap (ui_w u')) s0 = Some (js_remove g0 fs0) ∧
        listeners_of (w_heap (ui_w u')) store = Some (fs ++ [ui_next_fid u]) ∧
        ui_effects u' !! i = Some (store, ui_next_fid u) ∧
        w_code (ui_w u') !! ui_next_fid u = Some (listener_body store i).
Proof.
  intros Hwf Heff Hne Hl0 Hl.
  destruct (listeners_of_inv _ _ _ Hl0) as (st0 & ls0 & Hs0 & Hfs0).
  destruct (listeners_of_inv _ _ _ Hl) as (st & ls & Hs & Hfs).
  destruct (unsubscribe_frame _ _ _ _ (js_remove g0 fs0) _ _ _ _ Hwf Hs0 Hne Hs Hfs)
    as (Hs1 & Hfs1 & Hne0 & Hnext).
  pose proof (read_env_lt _ _ _ Hwf Hs0) as Hlt0.
  unfold useStore_effect. rewrite Heff, decide_False by done.
  unfold cleanup. rewrite Heff, (unsubscribe_done hook_ext _ _ _ _ _ _ Hs0 Hfs0). simpl.
  unfold subscribe_listener. simpl. rewrite (subscribe_done hook_ext _ _ _ st ls fs); [simpl|exact Hs1|exact Hfs1].
  eexists. split; [reflexivity|]. cbn [ui_w ui_effects w_heap w_code with_heap].
  split_and!.
  - apply (listeners_of_read _ _ st0 (next (w_heap (ui_w u)))).
    + rewrite read_env_update_ne by done. apply read_env_update_eq.
    + rewrite read_array_update_ne by done. rewrite read_array_update_ne by lia.
      unfold read_array. cbn. by rewrite lookup_insert_eq.
  - apply (listeners_of_read _ _ st ls); [|apply read_array_update_eq].
    rewrite read_env_update_ne; [done|]. intros ->.
    eapply read_env_array_ne; [exact Hs1|exact Hfs1|reflexivity].
  - apply lookup_insert_eq.
  - apply lookup_insert_eq.
Qed.

(** (C18) Unmounting the component instance [i] runs its effect's
    cleanup: the store loses every occurrence of the instance's
    listener, and the instance's effect and state cell are gone, so no
    later [setState] targets it. *)
Theorem unmount_unsubscribes u i s g fs :
  heap_wf (w_heap (ui_w u)) → ui_effects u !! i = Some (s, g) →
  listeners_of (w_heap (ui_w u)) s = Some fs →
  ∃ u', unmount i u = Some u' ∧
        listeners_of (w_heap (ui_w u')) s = Some (js_remove g fs) ∧
        ui_effects u' !! i = None ∧ w_ext (ui_w u') !! i = None.
Proof.
  intros Hwf Heff Hl. destruct (listeners_of_inv _ _ _ Hl) as (st & ls & Hs & Hfs).
  pose proof (read_env_lt _ _ _ Hwf Hs) as Hlt.
  unfold unmount, cleanup. rewrite Heff, (unsubscribe_done hook_ext _ _ _ _ _ _ Hs Hfs). simpl.
  eexists. split; [reflexivity|]. cbn [ui_w ui_effects w_heap w_ext with_heap with_ext with_world].
  split_and!.
  - apply (listeners_of_read _ _ st (next (w_heap (ui_w u)))); [apply read_env_update_eq|].
    rewrite read_array_update_ne by lia. unfold read_array. cbn. by rewrite lookup_insert_eq.
  - apply lookup_delete_eq.
  - apply lookup_delete_eq.
Qed.
End hook_lemmas.

End UseStore.
