(* ===== verification/App.v ===== *)
(** * The [App] component of [src/src/App.js] (lines 3-93)

    [App] builds, on each of its renders, the object [initialState]
    (line 4), a new store [createStore(reducer, initialState)] (line 66)
    and a [StoreProvider] passing it to one [Counter] (lines 68-92).
    [Counter] (lines 76-86) calls [useStore()] and shows
    [state.count]; its buttons dispatch [{ type: INCREMENT }] and
    [{ type: DECREMENT }].

    - [element], [StoreContext_default], [StoreProvider], [App_element]:
      the element tree [App] returns; [counter_contexts] resolves the
      context each [Counter] reads ([useContext]: the nearest provider's
      value, else the default [null]).
    - [render_counters], [commit_effects]: React's render phase (each
      [Counter] calls [useStore]) and commit phase (the effects, after
      all renders); [render_and_commit] applies both to [App]'s tree.
    - [app_render]: one render of [App] with its commit.  The component
      types [StoreProvider] and [Counter] (and the context) are created
      anew by each render of [App] (lines 45, 68, 76), so React remounts
      the [Counter]: the old instance is unmounted, a fresh one rendered
      against the new store.  [app_mount] is the first render.
    - [app_dispatch]: a call of the [dispatch] the [Counter] received,
      run to completion, followed by React's re-render of [Counter]
      (whose [useStore] effect does not run again: [store] is unchanged).
    - [display]: the number shown in the [<h1>].

    The reducer of [Reducer.v] is the instance of the store's reducer
    interface ([app_reducer], [app_reducer_laws]).

    Theorems here: for a tree whose providers pass live stores, the
    render throws exactly when the tree is a [Counter] outside every
    provider ([render_throws_outside_provider]); the program's store
    machine keeps every store's state a state object
    ([app_state_typed]).  The refinement is in [AppSpec.v]. *)

From stdpp Require Import base gmap list relations strings.
From Stdlib Require Import ZArith Lia.
From S2P Require Import Prelude JsNumber Heap Reducer Store StoreSafety StoreTyping StoreNotify UseStore.

Import Store UseStore.

#[export] Instance app_reducer : StoreReducer := Reducer.reducer.

Module App.

(** ** Definitions *)

(** The single [Counter] instance. *)
Definition COUNTER : nat := 0.

(** The state of the running application: the UI and the store the
    latest render of [App] created and provided. *)
Record app := mkApp { a_ui : ui; a_store : loc }.

(** Fuel for one [dispatch] run to completion: 2 steps plus 2 per
    listener and one per statement of its body; the application has one
    listener of one statement, so 4 steps; 16 leaves room. *)
Definition dispatch_fuel : nat := 16.

(** React elements of the program: a [StoreContext.Provider] with its
    [value] and children, and the [Counter] component. *)
Inductive element :=
  | EProvider (value : option loc) (children : list element)
  | ECounter.

(** [React.createContext(null)] (line 45): the value a [useContext]
    outside any provider returns. *)
Definition StoreContext_default : option loc := None.

(** [StoreProvider = ({ store, children }) => <StoreContext.Provider
    value={store}>{children}</StoreContext.Provider>] (lines 68-74). *)
Definition StoreProvider (store : loc) (children : list element) : element :=
  EProvider (Some store) children.

(** The element [App] returns (lines 88-92). *)
Definition App_element (store : loc) : element := StoreProvider store [ECounter].

(** The context each [Counter] of a tree reads with [useContext], in tree
    order: the value of the nearest enclosing provider. *)
Fixpoint counter_contexts (ctx : option loc) (e : element) : list (option loc) :=
  match e with
  | ECounter => [ctx]
  | EProvider v cs =>
      (fix go (cs : list element) : list (option loc) :=
         match cs with [] => [] | c :: cs' => counter_contexts v c ++ go cs' end) cs
  end.

(** Induction on elements, with the hypothesis on every child of a
    provider ([element_ind] gives none for the children list). *)
Section element_ind.
Context (P : element → Prop) (Pcounter : P ECounter).
Context (Pprovider : ∀ v cs, Forall P cs → P (EProvider v cs)).
Definition element_ind_alt : ∀ e, P e :=
  fix go e : P e :=
  match e with
  | ECounter => Pcounter
  | EProvider v cs =>
      Pprovider v cs $ list_ind (Forall P) (Forall_nil_2 _) (λ c _, Forall_cons_2 _ _ _ (go c)) cs
  end.
End element_ind.

(** Every provider of a tree passes a live store: the [value] of each
    [StoreContext.Provider] is a store whose [state] can be read. *)
Fixpoint providers_live (h : heap) (e : element) : Prop :=
  match e with
  | ECounter => True
  | EProvider v cs =>
      (∃ s, v = Some s ∧ is_Some (getState h s)) ∧
      (fix go (cs : list element) : Prop :=
         match cs with [] => True | c :: cs' => providers_live h c ∧ go cs' end) cs
  end.

(** React's render phase: each [Counter], in tree order, as instance
    [i], [i+1], ...; it collects the effects to run, with the [store]
    each one depends on. *)
Fixpoint render_counters (ctxs : list (option loc)) (i : nat) (u : ui)
    : option (ui * list (nat * loc)) :=
  match ctxs with
  | [] => Some (u, [])
  | ctx :: ctxs' =>
      '(u1, (_, store)) ← useStore_render ctx i u;
      '(u2, effs) ← render_counters ctxs' (S i) u1;
      Some (u2, (i, store) :: effs)
  end.

(** The commit phase: the effects, in order. *)
Fixpoint commit_effects (effs : list (nat * loc)) (u : ui) : option ui :=
  match effs with
  | [] => Some u
  | (i, store) :: effs' => useStore_effect store i u ≫= commit_effects effs'
  end.

(** Rendering the tree [App] returns for [store], and committing it. *)
Definition render_and_commit (store : loc) (u : ui) : option ui :=
  '(u1, effs) ← render_counters (counter_contexts StoreContext_default (App_element store)) COUNTER u;
  commit_effects effs u1.

(** One render of [App] and its commit.  [App]'s body allocates
    [initialState] (lines 4-6) and a new store (line 66), and creates
    [StoreContext], [StoreProvider] and [Counter] anew (lines 45, 68,
    76): the element types it returns differ from those of its previous
    render, so React unmounts the previous [Counter] (its effect's
    cleanup runs and its state is dropped) and mounts a new one.  The
    new [Counter]'s render allocates nothing, so running the unmount
    before it gives the heap the order of React's commit (deletions'
    cleanups, then the new effects).  On the first render there is
    nothing to unmount. *)
Definition app_render (u : ui) : option app :=
  let w := ui_w u in
  let '(init, h1) := alloc (OState Reducer.initialState) (w_heap w) in
  let '(s, h2) := createStore h1 init in
  u1 ← unmount COUNTER (with_world (with_heap h2 w) u);
  u2 ← render_and_commit s u1;
  Some (mkApp u2 s).

Definition ui_empty : ui := mkUi (mkWorld heap_empty ∅ ∅ []) ∅ 1%positive.

Definition app_mount : option app := app_render ui_empty.

(** [dispatch(action)] from the [Counter], then its re-render. *)
Definition app_dispatch (a : Action) (ap : app) : option app :=
  match dispatch hook_ext dispatch_fuel (ui_w (a_ui ap)) (a_store ap) a with
  | Done w' =>
      u2 ← render_and_commit (a_store ap) (with_world w' (a_ui ap));
      Some (mkApp u2 (a_store ap))
  | _ => None
  end.

(** [<h1>{state.count}</h1>]. *)
Definition display (ap : app) : option number :=
  st ← w_ext (ui_w (a_ui ap)) !! COUNTER;
  get_count (w_heap (ui_w (a_ui ap))) st.

(** The count held by the store's current state. *)
Definition store_count (ap : app) : option number :=
  st ← getState (w_heap (ui_w (a_ui ap))) (a_store ap);
  get_count (w_heap (ui_w (a_ui ap))) st.

(** The user's events. *)
Inductive event := ClickIncrement | ClickDecrement | Dispatch (a : Action) | RerenderApp.

Definition app_event (ev : event) (ap : app) : option app :=
  match ev with
  | ClickIncrement => app_dispatch Reducer.inc_action ap
  | ClickDecrement => app_dispatch Reducer.dec_action ap
  | Dispatch a => app_dispatch a ap
  | RerenderApp => app_render (a_ui ap)
  end.

Fixpoint app_run (evs : list event) (ap : app) : option app :=
  match evs with
  | [] => Some ap
  | ev :: evs' => app_event ev ap ≫= app_run evs'
  end.

(** The action of a user event ([None] for a re-render of [App]). *)
Definition action_of (ev : event) : option Action :=
  match ev with
  | ClickIncrement => Some Reducer.inc_action
  | ClickDecrement => Some Reducer.dec_action
  | Dispatch a => Some a
  | RerenderApp => None
  end.

(** ** Lemmas *)

#[export] Instance app_reducer_laws : StoreReducerLaws app_reducer.
Proof.
  split.
  - apply Reducer.reducer_incl.
  - apply Reducer.reducer_wf.
  - intros h st a l o Hwf Hl Hl'. unfold reduce, app_reducer, Reducer.reducer in Hl'.
    destruct (type a) as [t|]; [|simpl in Hl'; congruence].
    repeat case_decide; simpl in Hl'; try congruence;
      rewrite lookup_insert in Hl'; case_decide; simplify_eq; eauto.
  - intros h st a v Hwf Hst. unfold reduce, app_reducer, Reducer.reducer.
    destruct (type a) as [t|]; [|by exists v].
    repeat case_decide; [| |by exists v]; rewrite alloc_lookup_new; eauto.
Qed.

(** ** Properties *)

(** With every provided store live, the render phase of a list of
    contexts fails exactly when one of them is no store. *)
Lemma render_counters_none ctxs i u :
  (∀ s, Some s ∈ ctxs → is_Some (getState (w_heap (ui_w u)) s)) →
  render_counters ctxs i u = None ↔ None ∈ ctxs.
Proof.
  revert i u. induction ctxs as [|[s|] ctxs IH]; intros i u Hlive; cbn [render_counters].
  - split; [done|]. intros Hin. by apply elem_of_nil in Hin.
  - destruct (Hlive s) as [st Hst]; [by constructor|].
    destruct (useStore_render_live s i u st Hst) as (u1 & r & Hr).
    rewrite Hr. destruct r as [st1 s1]. simpl.
    pose proof (useStore_render_heap _ _ _ _ _ Hr) as Hh.
    rewrite elem_of_cons, <- (IH (S i) u1).
    + destruct (render_counters ctxs (S i) u1) as [[u2 effs]|]; simpl; intuition congruence.
    + intros s' Hs'. rewrite Hh. apply Hlive. by constructor.
  - split; [intros _; constructor|done].
Qed.

Lemma providers_live_provider h v cs :
  providers_live h (EProvider v cs) ↔
  (∃ s, v = Some s ∧ is_Some (getState h s)) ∧ Forall (providers_live h) cs.
Proof.
  simpl. apply and_iff_compat_l.
  induction cs as [|c cs IH]; simpl; [split; auto|]. by rewrite Forall_cons, IH.
Qed.

Lemma elem_of_counter_contexts_provider ctx v cs c :
  c ∈ counter_contexts ctx (EProvider v cs) ↔ ∃ e, e ∈ cs ∧ c ∈ counter_contexts v e.
Proof.
  simpl. induction cs as [|e cs IH]; simpl; [set_solver|].
  rewrite elem_of_app, IH. set_solver.
Qed.

(** A [Counter] of a tree whose providers are live reads either the
    context around the tree or a live store. *)
Lemma counter_contexts_live h e : ∀ ctx c,
  providers_live h e → c ∈ counter_contexts ctx e →
  c = ctx ∨ ∃ s, c = Some s ∧ is_Some (getState h s).
Proof.
  induction e as [|v cs IH] using element_ind_alt; intros ctx c.
  - intros _ Hin%list_elem_of_singleton. by left.
  - rewrite providers_live_provider, elem_of_counter_contexts_provider.
    intros [(s & -> & Hs) Hcs] (e & He & Hin). right.
    rewrite Forall_forall in IH, Hcs.
    destruct (IH e He (Some s) c (Hcs e He) Hin) as [->|?]; [by exists s|done].
Qed.

(** (C19) [useContext(StoreContext)] outside every [StoreProvider]
    returns the default [null] of [createContext(null)], and
    [store.getState()] on it throws a TypeError: for a tree whose
    providers pass live stores, the render phase fails exactly when the
    tree is a [Counter] outside any provider. *)
Theorem render_throws_outside_provider e i u :
  providers_live (w_heap (ui_w u)) e →
  render_counters (counter_contexts StoreContext_default e) i u = None ↔ e = ECounter.
Proof.
  intros Hl. destruct e as [v cs|]; [|by rewrite render_counters_none; set_solver].
  pose proof Hl as [(s & -> & Hs) _].
  rewrite render_counters_none.
  - split; [|done]. intros Hin.
    by destruct (counter_contexts_live _ _ (Some s) None Hl Hin) as [|(? & ? & ?)].
  - intros s' Hin.
    destruct (counter_contexts_live _ _ (Some s) _ Hl Hin) as [[= ->]|(? & [= ->] & ?)]; done.
Qed.

(** (C20) The program's store machine keeps every store's [state] a
    state object [{count}]: from a well-formed configuration whose
    stores hold state objects, a transition of the machine of [App]
    (its reducer, its hook extension) leads to one where they still do,
    so [state.count] in [Counter] is always defined. *)
Theorem app_state_typed c c' :
  wf_config c → state_typed (w_heap c.1) →
  Store.cstep (R:=app_reducer) hook_ext c c' → state_typed (w_heap c'.1).
Proof. intros Hc Ht Hs. by eapply (cstep_typed hook_ext), Hs. Qed.

End App.
