(* ===== verification/AppSpec.v ===== *)
(** * The running application against its specification

    The specification [spec_count] is an integer counter driven by the
    user's events, written without the model's own wiring of the
    buttons ([action_of]): the Increment button adds one and the
    Decrement button subtracts one, saturating at [± 2^53] (where the
    JavaScript addition rounds); a dispatched action acts as the
    reducer's [sat_count]; a re-render of [App] starts over from [0]
    (a new store, and a new [Counter] whose state is read from it).

    The invariant is [synced ap n]: the [Counter] shows the store's
    state, the store holds the integer [n], and the [Counter]'s listener
    is the store's only one.  The mount establishes it
    ([mount_synced]), a dispatch keeps it ([dispatch_synced]), and so
    does a re-render of [App], at [0] ([rerender_synced]).  The
    event-wise simulation ([app_event_sim]) is lifted to event
    sequences by the generic [lockstep_run] of the section [lockstep]. *)

From stdpp Require Import base gmap list relations strings.
From Stdlib Require Import ZArith Lia.
From S2P Require Import Prelude JsNumber Heap Reducer Store StoreSafety StoreNotify UseStore App.

Import Store UseStore App.

Module AppSpec.

(** ** Definitions *)

(** One event on the specified counter. *)
Definition spec_step (ev : event) (n : Z) : Z :=
  match ev with
  | ClickIncrement => Z.min (n + 1) two53
  | ClickDecrement => Z.max (n - 1) (- two53)
  | Dispatch a => Reducer.sat_count a n
  | RerenderApp => 0
  end.

(** The specified count after a sequence of events from the mount. *)
Definition spec_count (evs : list event) : Z :=
  fold_left (λ n ev, spec_step ev n) evs 0%Z.

(** The application in a state where the [Counter] shows the store's
    state, which holds the integer [n], and is the store's only
    listener. *)
Definition synced (ap : app) (n : Z) : Prop :=
  let w := ui_w (a_ui ap) in
  let h := w_heap w in
  let s := a_store ap in
  ∃ st ls g,
    read_env h s = Some (st, ls) ∧ read_array h ls = Some [g] ∧
    w_code w !! g = Some (listener_body s COUNTER) ∧
    w_ext w !! COUNTER = Some st ∧ ui_effects (a_ui ap) !! COUNTER = Some (s, g) ∧
    get_count h st = Some (of_Z n) ∧ heap_wf h ∧ (- two53 ≤ n ≤ two53)%Z.

(** ** Lemmas *)

(** A simulation, event by event, of an abstract machine by a partial
    implementation, lifted to sequences of events. *)
Section lockstep.
Context {A S E : Type} (impl : E → A → option A) (spec : E → S → S) (inv : A → S → Prop).
Context (run : list E → A → option A).
Hypothesis run_nil : ∀ a, run [] a = Some a.
Hypothesis run_cons : ∀ e es a, run (e :: es) a = impl e a ≫= run es.
Hypothesis sim : ∀ e a σ, inv a σ → ∃ a', impl e a = Some a' ∧ inv a' (spec e σ).

Lemma lockstep_run es a σ :
  inv a σ → ∃ a', run es a = Some a' ∧ inv a' (fold_left (λ σ e, spec e σ) es σ).
Proof.
  revert a σ. induction es as [|e es IH]; intros a σ Hinv; [rewrite run_nil; eauto|].
  rewrite run_cons. destruct (sim e a σ Hinv) as (a1 & He & Hi1). rewrite He. simpl. by apply IH.
Qed.
End lockstep.

Local Abbreviation cstep := (Store.cstep hook_ext).
Local Ltac lookups := repeat (rewrite lookup_insert_eq || (rewrite lookup_insert_ne by lia)).

(** A lookup of the key just deleted. *)
Local Ltac lookup_deleted :=
  match goal with
  | |- context [delete ?i ?m !! ?i] =>
      let H := fresh in
      destruct (delete i m !! i) eqn:H; [rewrite lookup_delete_eq in H; discriminate|]
  end.

(** The four transitions of a [dispatch] with the [Counter]'s listener
    as the only one: reducer, call of the listener, its [setState],
    end of [forEach]. *)
Lemma dispatch_one_listener (w : world nat cells) s a st ls g st' h1 :
  read_env (w_heap w) s = Some (st, ls) →
  read_array (update s (OEnv st' ls) h1) ls = Some [g] →
  w_code w !! g = Some (listener_body s COUNTER) →
  Reducer.reducer (w_heap w) st a = (st', h1) →
  dispatch hook_ext dispatch_fuel w s a
  = Done (mkWorld (update s (OEnv st' ls) h1) (w_code w)
                  (<[COUNTER := st']> (w_ext w)) (w_calls w ++ [g])).
Proof.
  intros Hs Hls Hg Hred. apply (run_mono _ 4); [|unfold dispatch_fuel; apply Nat.leb_le; reflexivity].
  apply run_nsteps. eapply nsteps_l; [by eapply cstep_dispatch|].
  eapply nsteps_l; [eapply cstep_foreach_call; [exact Hls|simpl; lia|done|exact Hg]|].
  eapply nsteps_l; [eapply cstep_ext; simpl; apply read_env_update_eq|].
  eapply nsteps_l; [eapply cstep_foreach_done; [exact Hls|simpl; lia]|].
  apply nsteps_O.
Qed.

Lemma synced_display ap n : synced ap n → display ap = Some (of_Z n) ∧ store_count ap = Some (of_Z n).
Proof.
  intros (st & ls & g & Hs & _ & _ & Hcell & _ & Hn & _).
  unfold display, store_count, getState. rewrite Hcell, Hs. simpl. by rewrite Hn.
Qed.

(** A dispatch keeps the [Counter] in step with the store, and the
    count follows [sat_count]. *)
Lemma dispatch_synced ap n a :
  synced ap n → ∃ ap', app_dispatch a ap = Some ap' ∧ synced ap' (Reducer.sat_count a n).
Proof.
  intros (st & ls & g & Hs & Hls & Hg & _ & Heff & Hn & Hwf & Hb).
  destruct (Reducer.reducer (w_heap (ui_w (a_ui ap))) st a) as [st' h1] eqn:Hred.
  pose proof (Reducer.reducer_incl _ st a Hwf) as Hi. rewrite Hred in Hi.
  pose proof (Reducer.reducer_wf _ st a Hwf) as Hwf1. rewrite Hred in Hwf1.
  pose proof (Reducer.reducer_count _ st a _ Hwf Hn) as Hn1. rewrite Hred in Hn1.
  simpl in Hn1. rewrite Reducer.step_count_saturates in Hn1 by done.
  assert (Hs1 : read_env h1 (a_store ap) = Some (st, ls)) by (by eapply read_env_incl).
  assert (Hne : a_store ap ≠ ls) by (eapply read_env_array_ne; [exact Hs|exact Hls]).
  assert (Hls2 : read_array (update (a_store ap) (OEnv st' ls) h1) ls = Some [g]).
  { rewrite read_array_update_ne by done. by eapply read_array_incl. }
  eexists. split.
  - unfold app_dispatch. rewrite (dispatch_one_listener _ _ _ st ls g st' h1) by done.
    unfold render_and_commit. simpl.
    unfold useStore_render, getState. simpl. rewrite read_env_update_eq, lookup_insert_eq.
    simpl. unfold useStore_effect. simpl. rewrite Heff, decide_True by done. reflexivity.
  - exists st', ls, g. simpl. split_and!.
    + apply read_env_update_eq.
    + done.
    + done.
    + apply lookup_insert_eq.
    + done.
    + rewrite get_count_update_ne; [done|]. by eapply get_count_env_ne.
    + apply update_wf; [|done]. apply read_env_lookup in Hs1. by eexists.
    + pose proof (Reducer.sat_count_bounds a n Hb); lia.
    + pose proof (Reducer.sat_count_bounds a n Hb); lia.
Qed.

Lemma mount_synced : ∃ ap, app_mount = Some ap ∧ synced ap 0.
Proof.
  eexists. split; [reflexivity|]. exists 1%positive, 2%positive, 1%positive.
  split_and!; try (vm_compute; reflexivity).
  - apply heap_wf_dec. apply (bool_decide_unpack _). vm_compute. reflexivity.
  - unfold two53. lia.
  - unfold two53. lia.
Qed.

(** The buttons' actions give the specified steps. *)
Lemma spec_step_action ev a n :
  action_of ev = Some a → spec_step ev n = Reducer.sat_count a n.
Proof.
  intros Hev. destruct ev; simplify_eq/=; [| |done].
  - unfold Reducer.sat_count, Reducer.inc_action. cbn [type]. by rewrite decide_True.
  - unfold Reducer.sat_count, Reducer.dec_action. cbn [type].
    by rewrite decide_False, decide_True by done.
Qed.

(** A re-render of [App] from a synchronised state: a new state object
    and a new store at [0]; the old [Counter] is unmounted (its listener
    unsubscribed from the old store, its state dropped) and the new one
    reads the new store's state and subscribes to it. *)
Lemma rerender_synced ap n :
  synced ap n →
  ∃ ap', app_render (a_ui ap) = Some ap' ∧ synced ap' 0 ∧ a_store ap' ≠ a_store ap ∧
         listeners_of (w_heap (ui_w (a_ui ap'))) (a_store ap) = Some [].
Proof.
  intros (st & ls & g & Hs & Hls & Hg & Hcell & Heff & Hn & Hwf & Hb).
  destruct ap as [[w effs nf] s]. destruct w as [h code cells calls]. simpl in *.
  pose proof (read_env_lt _ _ _ Hwf Hs) as Hsl.
  pose proof (read_array_lt _ _ _ Hwf Hls) as Hlsl.
  destruct h as [hobjs hnext]. cbn [next objs] in *.
  unfold app_render. simpl.
  unfold unmount, cleanup. cbn [ui_effects with_world]. rewrite Heff.
  rewrite (unsubscribe_done _ _ _ _ st ls [g]); cycle 1.
  { unfold read_env. cbn. lookups. exact Hs. }
  { unfold read_array. cbn. lookups. exact Hls. }
  rewrite js_remove_cons_eq. simpl.
  unfold render_and_commit. simpl.
  unfold useStore_render, getState, read_env at 1. cbn. lookups. simpl.
  lookup_deleted. simpl.
  unfold useStore_effect. cbn [ui_effects with_world]. lookup_deleted.
  unfold subscribe_listener. cbn [ui_w ui_next_fid ui_effects with_world with_ext].
  rewrite (subscribe_done _ _ _ _ hnext (Pos.succ hnext) []); cycle 1.
  { unfold read_env. cbn. lookups. reflexivity. }
  { unfold read_array. cbn. lookups. reflexivity. }
  eexists. split; [reflexivity|]. split_and!.
  - exists hnext, (Pos.succ hnext), nf. cbn.
    unfold read_env, read_array, get_count. cbn. split_and!; lookups; try reflexivity.
    + unfold update. cbn [objs next].
      repeat (apply (heap_wf_insert _ (Pos.succ (Pos.succ (Pos.succ (Pos.succ hnext))))); [|lia|lia]).
      apply (heap_wf_next_le _ _ _ Hwf). lia.
    + unfold two53. lia.
    + unfold two53. lia.
  - cbn. lia.
  - cbn. unfold listeners_of, read_env, read_array. cbn. lookups. simpl. lookups. reflexivity.
Qed.

(** One event, on both sides. *)
Lemma app_event_sim ev ap n :
  synced ap n → ∃ ap', app_event ev ap = Some ap' ∧ synced ap' (spec_step ev n).
Proof.
  intros Hs. destruct (action_of ev) as [a|] eqn:Hev.
  - destruct (dispatch_synced ap n a Hs) as (ap' & Hd & Hs').
    exists ap'. rewrite (spec_step_action ev a n Hev).
    split; [|done]. destruct ev; simplify_eq/=; done.
  - destruct ev; try discriminate Hev.
    destruct (rerender_synced ap n Hs) as (ap' & Hr & Hs' & _). by exists ap'.
Qed.

Lemma app_run_synced evs ap n :
  synced ap n →
  ∃ ap', app_run evs ap = Some ap' ∧ synced ap' (fold_left (λ n ev, spec_step ev n) evs n).
Proof.
  apply (lockstep_run app_event spec_step synced app_run (λ _, eq_refl) (λ _ _ _, eq_refl)
           app_event_sim).
Qed.

Lemma app_mount_run_synced evs :
  ∃ ap, (app_mount ≫= app_run evs) = Some ap ∧ synced ap (spec_count evs).
Proof.
  destruct mount_synced as (ap0 & Hm & Hs0).
  destruct (app_run_synced evs ap0 0 Hs0) as (ap & Hr & Hs).
  exists ap. rewrite Hm. split; [exact Hr|exact Hs].
Qed.

(** ** Properties *)

(** (C1) Refinement: from the first render, after any sequence of
    events (clicks on either button, any dispatched action, re-renders
    of [App]), the application runs, the [Counter] displays the Number
    of the specified counter [spec_count], and the store holds the same
    count. *)
Theorem app_refines evs :
  ∃ ap, (app_mount ≫= app_run evs) = Some ap ∧
        display ap = Some (of_Z (spec_count evs)) ∧
        store_count ap = Some (of_Z (spec_count evs)).
Proof.
  destruct (app_mount_run_synced evs) as (ap & Hr & Hs).
  exists ap. split; [done|]. exact (synced_display _ _ Hs).
Qed.

(** (C6) [App] creates its store, and its components, in its body: a
    re-render of [App], after any history, discards the count (display
    and store are back at [0]), provides a new store, and leaves the old
    store without listeners (the old [Counter]'s cleanup ran). *)
Theorem rerender_resets evs :
  ∃ ap ap', (app_mount ≫= app_run evs) = Some ap ∧ app_render (a_ui ap) = Some ap' ∧
            display ap' = Some (of_Z 0) ∧ store_count ap' = Some (of_Z 0) ∧
            a_store ap' ≠ a_store ap ∧
            listeners_of (w_heap (ui_w (a_ui ap'))) (a_store ap) = Some [].
Proof.
  destruct (app_mount_run_synced evs) as (ap & Hr & Hs).
  destruct (rerender_synced ap _ Hs) as (ap' & Hr' & Hs' & Hne & Hl).
  exists ap, ap'. split_and!; try done; apply (synced_display _ _ Hs').
Qed.
End AppSpec.
