(* ===== verification/Witnesses.v ===== *)
(** * The theorems applied to concrete stores

    Each lemma below instantiates one theorem of the development on a
    concrete input built by the program's own functions (the world of
    the mounted [App], a store with three listeners of which the second
    unsubscribes the third while [dispatch] notifies), its hypotheses
    discharged by evaluation. *)

From stdpp Require Import base gmap list relations strings.
From Stdlib Require Import ZArith Lia.
From S2P Require Import Prelude JsNumber Heap Reducer Store StoreSafety StoreTyping StoreNotify UseStore App AppSpec.

Import Store UseStore App AppSpec.

Module Witnesses.

(** ** Concrete worlds *)

(** The mounted application: state object [1], listeners array [2],
    store [3], the [Counter]'s listener [1]. *)
Definition mounted : app :=
  match app_mount with Some ap => ap | None => mkApp ui_empty 1%positive end.

Definition w0 : world nat cells := ui_w (a_ui mounted).

Definition s0 : loc := 3%positive.

(** Two more listeners: [7] calls the unsubscribe closure of [8], [8]
    sets the [Counter]'s cell. *)
Definition w0_code : world nat cells :=
  mkWorld (w_heap w0)
          (<[7%positive := [CUnsubscribe s0 8%positive]]>
             (<[8%positive := [CExt s0 COUNTER]]> (w_code w0)))
          (w_ext w0) (w_calls w0).

Definition w_snap : world nat cells :=
  match subscribe hook_ext w0_code s0 7%positive with
  | Done w1 => match subscribe hook_ext w1 s0 8%positive with Done w2 => w2 | _ => w1 end
  | _ => w0_code
  end.

(** The mounted store with its listener's body replaced by
    [store.dispatch({type: INCREMENT})]. *)
Definition w_reentrant : world nat cells :=
  mkWorld (w_heap w0) (<[1%positive := [CDispatch s0 Reducer.inc_action]]> (w_code w0))
          (w_ext w0) (w_calls w0).

Definition c_dispatch : config nat cells := (w_snap, [CDispatch s0 Reducer.inc_action]).

Definition c_next : config nat cells :=
  match step hook_ext c_dispatch with Some c => c | None => c_dispatch end.

Definition created : loc * heap := createStore (w_heap w0) 1%positive.

Definition reset_action : Action := {| type := Some "RESET"%string |}.

Definition heap_top : heap := snd (alloc (OState {| count := of_Z two53 |}) heap_empty).

(** The mounted UI after a second store was created in its heap. *)
Definition u_two_stores : ui := with_world (with_heap created.2 w0) (a_ui mounted).

Ltac wf_world_by_eval := apply wf_checkb_sound; vm_compute; reflexivity.

Ltac cmds_by_eval :=
  repeat (apply List.Forall_cons; [vm_compute; eexists; reflexivity|]); apply List.Forall_nil.

(** ** Witnesses *)

Lemma dispatch_notifies_witness :
  ∃ w', rtc (cstep hook_ext) (w_snap, [CDispatch s0 Reducer.inc_action]) (w', []) ∧
        w_calls w' = w_calls w_snap ++ [1%positive; 7%positive; 8%positive] ∧
        getState (w_heap w') s0 = Some (fst (reduce (w_heap w_snap) 1%positive Reducer.inc_action)).
Proof.
  apply (dispatch_notifies hook_ext w_snap s0 Reducer.inc_action 1%positive 2%positive).
  - split; [wf_world_by_eval|constructor].
  - apply flat_codeb_sound. vm_compute. reflexivity.
  - vm_compute. reflexivity.
  - vm_compute. reflexivity.
Defined.

Lemma safety_witness : c_dispatch.2 = [] ∨ ∃ c'', cstep hook_ext c_dispatch c''.
Proof.
  apply (safety hook_ext c_dispatch c_dispatch); [|apply rtc_refl].
  split; [wf_world_by_eval|]. cmds_by_eval.
Defined.

Lemma cstep_preserves_witness : wf_config c_next.
Proof.
  apply (cstep_preserves hook_ext c_dispatch c_next).
  - split; [wf_world_by_eval|]. cmds_by_eval.
  - apply step_iff_cstep. vm_compute. reflexivity.
Defined.

Lemma progress_witness : ∃ c', cstep hook_ext (w_snap, [CDispatch s0 Reducer.inc_action]) c'.
Proof.
  apply (progress hook_ext w_snap (CDispatch s0 Reducer.inc_action) []).
  split; [wf_world_by_eval|]. cmds_by_eval.
Defined.

Lemma createStore_wf_witness :
  wf_world (with_heap created.2 w0) ∧ getState created.2 created.1 = Some 1%positive ∧
  listeners_of created.2 created.1 = Some [] ∧ heap_incl (w_heap w0) created.2.
Proof.
  apply (createStore_wf (E:=nat) (X:=cells) w0 1%positive created.1 created.2).
  - wf_world_by_eval.
  - vm_compute. reflexivity.
Defined.

Lemma subscribe_listeners_witness :
  ∃ w', subscribe hook_ext w0 s0 1%positive = Done w' ∧ wf_config (w', []) ∧
        listeners_of (w_heap w') s0 = Some ([1%positive] ++ [1%positive]).
Proof.
  apply (subscribe_listeners hook_ext w0 s0 1%positive [1%positive]).
  - split; [wf_world_by_eval|constructor].
  - vm_compute. reflexivity.
  - vm_compute. eexists. reflexivity.
Defined.

Lemma unsubscribe_listeners_witness :
  ∃ w', unsubscribe hook_ext w_snap s0 8%positive = Done w' ∧ wf_config (w', []) ∧
        listeners_of (w_heap w') s0 =
          Some (filter (λ g, g ≠ 8%positive) [1%positive; 7%positive; 8%positive]).
Proof.
  apply (unsubscribe_listeners hook_ext w_snap s0 8%positive).
  - split; [wf_world_by_eval|constructor].
  - vm_compute. reflexivity.
Defined.

Lemma double_subscription_cancelled_witness :
  ∃ w1 w2, subscribe hook_ext w_snap s0 7%positive = Done w1 ∧
           unsubscribe hook_ext w1 s0 7%positive = Done w2 ∧
           listeners_of (w_heap w2) s0 =
             Some (filter (λ g, g ≠ 7%positive) [1%positive; 7%positive; 8%positive]) ∧
           filter (λ g, g ≠ 7%positive) [1%positive; 7%positive; 8%positive]
             ≠ [1%positive; 7%positive; 8%positive].
Proof.
  apply (double_subscription_cancelled hook_ext w_snap s0 7%positive).
  - split; [wf_world_by_eval|constructor].
  - vm_compute. reflexivity.
  - vm_compute. by eexists.
  - apply (bool_decide_unpack _). vm_compute. reflexivity.
Defined.

Lemma unsubscribe_idemp_witness :
  ∃ w1 w2, unsubscribe hook_ext w_snap s0 7%positive = Done w1 ∧
           unsubscribe hook_ext w1 s0 7%positive = Done w2 ∧
           listeners_of (w_heap w2) s0 = listeners_of (w_heap w1) s0.
Proof.
  apply (unsubscribe_idemp hook_ext w_snap s0 7%positive [1%positive; 7%positive; 8%positive]).
  - split; [wf_world_by_eval|constructor].
  - vm_compute. reflexivity.
Defined.

Lemma reducer_increment_witness :
  Reducer.reducer (w_heap w0) 1%positive Reducer.inc_action
  = alloc (OState {| count := of_Z (0 + 1) |}) (w_heap w0).
Proof.
  apply Reducer.reducer_increment; [vm_compute; reflexivity|unfold two53; lia].
Defined.

Lemma reducer_decrement_witness :
  Reducer.reducer (w_heap w0) 1%positive Reducer.dec_action
  = alloc (OState {| count := of_Z (0 - 1) |}) (w_heap w0).
Proof.
  apply Reducer.reducer_decrement; [vm_compute; reflexivity|unfold two53; lia].
Defined.

Lemma reducer_default_witness :
  Reducer.reducer (w_heap w0) 1%positive reset_action = (1%positive, w_heap w0).
Proof.
  apply Reducer.reducer_default. intros t Ht. injection Ht as <-. split; done.
Defined.

Lemma reducer_saturates_witness :
  get_count (snd (Reducer.reducer heap_top 1%positive Reducer.inc_action))
            (fst (Reducer.reducer heap_top 1%positive Reducer.inc_action))
  = Some (of_Z (Reducer.sat_count Reducer.inc_action two53)).
Proof.
  apply Reducer.reducer_saturates.
  - apply heap_wf_dec. apply (bool_decide_unpack _). vm_compute. reflexivity.
  - vm_compute. reflexivity.
  - unfold two53. lia.
Defined.

Lemma dispatch_reentrant_diverges_witness :
  ∃ c', dispatch hook_ext 64 w_reentrant s0 Reducer.inc_action = OutOfFuel c'.
Proof.
  apply (dispatch_reentrant_diverges hook_ext w_reentrant s0 Reducer.inc_action 2%positive 1%positive).
  split_and!.
  - exists 1%positive. vm_compute. reflexivity.
  - vm_compute. reflexivity.
  - vm_compute. reflexivity.
  - apply heap_wf_dec. apply (bool_decide_unpack _). vm_compute. reflexivity.
Defined.

Lemma useStore_effect_moves_witness :
  ∃ u', useStore_effect created.1 COUNTER u_two_stores = Some u' ∧
        listeners_of (w_heap (ui_w u')) s0 = Some (js_remove 1%positive [1%positive]) ∧
        listeners_of (w_heap (ui_w u')) created.1 = Some ([] ++ [ui_next_fid u_two_stores]) ∧
        ui_effects u' !! COUNTER = Some (created.1, ui_next_fid u_two_stores) ∧
        w_code (ui_w u') !! ui_next_fid u_two_stores = Some (listener_body created.1 COUNTER).
Proof.
  apply (useStore_effect_moves u_two_stores created.1 COUNTER s0 1%positive).
  - apply heap_wf_dec. apply (bool_decide_unpack _). vm_compute. reflexivity.
  - vm_compute. reflexivity.
  - vm_compute. discriminate.
  - vm_compute. reflexivity.
  - vm_compute. reflexivity.
Defined.

Lemma unmount_unsubscribes_witness :
  ∃ u', unmount COUNTER (a_ui mounted) = Some u' ∧
        listeners_of (w_heap (ui_w u')) s0 = Some (js_remove 1%positive [1%positive]) ∧
        ui_effects u' !! COUNTER = None ∧ w_ext (ui_w u') !! COUNTER = None.
Proof.
  apply (unmount_unsubscribes (a_ui mounted) COUNTER s0 1%positive).
  - apply heap_wf_dec. apply (bool_decide_unpack _). vm_compute. reflexivity.
  - vm_compute. reflexivity.
  - vm_compute. reflexivity.
Defined.

Lemma render_throws_outside_provider_witness :
  render_counters (counter_contexts StoreContext_default (App_element s0)) COUNTER (a_ui mounted)
    = None ↔ App_element s0 = ECounter.
Proof.
  apply render_throws_outside_provider.
  split; [exists s0; split; [done|vm_compute; by eexists]|done].
Defined.

Lemma app_state_typed_witness : state_typed (w_heap c_next.1).
Proof.
  apply (app_state_typed c_dispatch c_next).
  - split; [wf_world_by_eval|]. cmds_by_eval.
  - apply state_typedb_sound. vm_compute. reflexivity.
  - apply step_iff_cstep. vm_compute. reflexivity.
Defined.

Lemma subscribe_unsubscribe_roundtrip_witness :
  ∃ w1 w2, subscribe hook_ext w0_code s0 7%positive = Done w1 ∧
           unsubscribe hook_ext w1 s0 7%positive = Done w2 ∧
           listeners_of (w_heap w2) s0 = Some [1%positive].
Proof.
  apply (subscribe_unsubscribe_roundtrip hook_ext w0_code s0 7%positive [1%positive]).
  - split; [wf_world_by_eval|constructor].
  - vm_compute. reflexivity.
  - vm_compute. by eexists.
  - apply (bool_decide_unpack _). vm_compute. reflexivity.
Defined.

Lemma increment_decrement_roundtrip_witness :
  let '(st1, h1) := Reducer.reducer (w_heap w0) 1%positive Reducer.inc_action in
  let '(st2, h2) := Reducer.reducer h1 st1 Reducer.dec_action in
  get_count h2 st2 = Some (of_Z 0).
Proof.
  apply Reducer.increment_decrement_roundtrip.
  - apply heap_wf_dec. apply (bool_decide_unpack _). vm_compute. reflexivity.
  - vm_compute. reflexivity.
  - unfold two53. lia.
Defined.

End Witnesses.
